(** * The query builder of the database layer

    A shallow embedding of [packages/core/database/lib/query/query-builder.js]
    ([createQueryBuilder]) and the properties of its fluent setters, its column
    resolver and its compilation to a native (knex) query.

    The builder is a closure over a mutable [state] object, a private alias
    [counter] and the database handle [db]; its methods are modelled as
    functions on an explicit [QueryBuilder] value, the fallible ones in a small
    state-and-exception monad.  The native query object that the builder drives
    is modelled by the ordered trace of the method calls made on it. *)

From Stdlib Require Import Ascii String List ZArith Bool Lia Sorted DecimalString.
From Stdlib Require DecimalFacts DecimalNat Finite.

Set Warnings "-register-all".
Set Implicit Arguments.
Import ListNotations.
Open Scope string_scope.
Open Scope list_scope.
Open Scope nat_scope.

(** ** JavaScript values and the lodash functions the builder uses *)

Module JS.

(** Dynamically typed values.  Numbers are the integers (and [NaN]); a
    [VObject] is a plain object literal and a [VArray] an array literal; a
    [VRaw r] is any other object (a raw SQL expression, a column reference
    literal, a class instance), known only by its reference [r]. *)
Inductive value : Type :=
| VUndefined
| VNull
| VBool (b : bool)
| VNum (n : Z)
| VNaN
| VStr (s : string)
| VArray (items : list value)
| VObject (fields : list (string * value))
| VRaw (ref : nat).

(** [if (v)]: the falsy values are [undefined], [null], [false], [0], [NaN]
    and the empty string. *)
Definition truthy (v : value) : bool :=
  match v with
  | VUndefined | VNull | VNaN => false
  | VBool b => b
  | VNum n => negb (n =? 0)%Z
  | VStr s => negb (s =? "")%string
  | VArray _ | VObject _ | VRaw _ => true
  end.

(** [_.isNil] *)
Definition isNil (v : value) : bool :=
  match v with
  | VUndefined | VNull => true
  | _ => false
  end.

(** [_.isPlainObject] *)
Definition isPlainObject (v : value) : bool :=
  match v with
  | VObject _ => true
  | _ => false
  end.

(** [typeof v === 'string'] *)
Definition isString (v : value) : bool :=
  match v with
  | VStr _ => true
  | _ => false
  end.

(** [_.castArray] *)
Definition castArray (v : value) : list value :=
  match v with
  | VArray items => items
  | _ => [v]
  end.

(** The [SameValueZero] comparison that [_.uniq] uses: primitives are compared
    by value ([NaN] equals itself), objects by reference.  Two array or plain
    object literals are never the same reference. *)
Definition sameValueZero (x y : value) : bool :=
  match x, y with
  | VUndefined, VUndefined => true
  | VNull, VNull => true
  | VBool a, VBool b => Bool.eqb a b
  | VNum a, VNum b => (a =? b)%Z
  | VNaN, VNaN => true
  | VStr a, VStr b => (a =? b)%string
  | VRaw a, VRaw b => (a =? b)
  | _, _ => false
  end.

(** [includes]: membership up to [sameValueZero]. *)
Definition includes (seen : list value) (x : value) : bool :=
  existsb (sameValueZero x) seen.

(** [_.uniq]: walk the array from the left and push every value that the
    result does not include yet. *)
Definition uniqStep (result : list value) (x : value) : list value :=
  if includes result x then result else result ++ [x].

Definition uniq (l : list value) : list value :=
  fold_left uniqStep l [].

(** [_.has(key, object)] on the attribute table of an entity. *)
Definition has (key : string) (attributes : list (string * value)) : bool :=
  existsb (fun kv => (fst kv =? key)%string) attributes.

(** [s.indexOf('.') >= 0] *)
Fixpoint containsDot (s : string) : bool :=
  match s with
  | EmptyString => false
  | String c rest => if Ascii.eqb c "."%char then true else containsDot rest
  end.

End JS.
Import JS.

(** ** Specification-side notions for column lists *)

(** A column list is deduplicated when no value occurs, up to [sameValueZero],
    at two positions. *)
Definition Deduplicated (l : list value) : Prop :=
  forall i j x y,
    i < j -> nth_error l i = Some x -> nth_error l j = Some y ->
    sameValueZero x y = false.

(** The first occurrences of a list, in the order in which they are first
    seen: the head is kept and every later copy of it is dropped. *)
Fixpoint firstSeen (l : list value) : list value :=
  match l with
  | [] => []
  | x :: rest => x :: filter (fun y => negb (sameValueZero x y)) (firstSeen rest)
  end.

(** ** The native query object *)

(** [{ column, order }] entries of an order-by clause. *)
Record order_entry : Type := OrderEntry { column : value; order : value }.

(** The operation kinds, the values of [state.type]. *)
Inductive kind : Type := Select | Insert | Update | Delete | Count | Truncate.

(** What a native query is bound to: [db.connection(tableName)],
    [db.connection({ [alias]: tableName })]. *)
Inductive table_ref : Type :=
| Table (name : string)
| Aliased (alias name : string).

(** The predicate group built inside [qb.where(subQb => ...)]: the callback
    hands the sub-builder to [helpers.applySearch] with the search term and the
    builder's alias. *)
Inductive predicate_group : Type :=
| ApplySearch (term : value) (alias : string).

(** A native query is the table (or derived table) it reads and the calls made
    on it, oldest first.  [helpers.applyWhere(qb, w)] and
    [helpers.applyJoins(qb, j)] are recorded as calls with their argument. *)
Inductive native_query : Type :=
| Query (from : source) (calls : list knex_call)
with source : Type :=
| FromTable (t : table_ref)
| FromSubquery (q : native_query) (as_ : string)
with knex_call : Type :=
| KDistinct (col : value)
| KSelect (cols : list value)
| KCount (target : option value)
| KInsert (data : value)
| KReturning (col : string)
| KUpdate (data : value)
| KDelete
| KTruncate
| KLimit (n : value)
| KOffset (n : value)
| KOrderBy (entries : list order_entry)
| KFirst
| KGroupBy (cols : list value)
| KApplyWhere (filters : list value)
| KWhere (group : predicate_group)
| KApplyJoins (joins : list value)
| KWhereIn (col : string) (sub : native_query).

Definition calls_of (q : native_query) : list knex_call :=
  match q with Query _ cs => cs end.

Definition from_of (q : native_query) : source :=
  match q with Query f _ => f end.

(** [db.connection(t)]: a native query bound to [t], with no call yet. *)
Definition connection (t : table_ref) : native_query := Query (FromTable t) [].

(** [qb.m(...)]: the call is appended to the trace of [qb]. *)
Definition call (c : knex_call) (qb : native_query) : native_query :=
  match qb with Query f cs => Query f (cs ++ [c]) end.

(** The operation a call stands for, if it is one of the six operation
    methods. *)
Definition verb (c : knex_call) : option kind :=
  match c with
  | KSelect _ => Some Select
  | KCount _ => Some Count
  | KInsert _ => Some Insert
  | KUpdate _ => Some Update
  | KDelete => Some Delete
  | KTruncate => Some Truncate
  | _ => None
  end.

Fixpoint verbs (cs : list knex_call) : list kind :=
  match cs with
  | [] => []
  | c :: rest =>
      match verb c with
      | Some k => k :: verbs rest
      | None => verbs rest
      end
  end.

(** [qb[k]()]: the operation method named by a kind, called with no
    argument. *)
Definition callNoArgs (k : kind) : knex_call :=
  match k with
  | Select => KSelect []
  | Count => KCount None
  | Insert => KInsert VUndefined
  | Update => KUpdate VUndefined
  | Delete => KDelete
  | Truncate => KTruncate
  end.

Definition isDistinct (c : knex_call) : bool :=
  match c with
  | KDistinct _ => true
  | _ => false
  end.

Definition isReturning (c : knex_call) : bool :=
  match c with
  | KReturning _ => true
  | _ => false
  end.

Definition isLimit (c : knex_call) : bool :=
  match c with
  | KLimit _ => true
  | _ => false
  end.

Definition isOffset (c : knex_call) : bool :=
  match c with
  | KOffset _ => true
  | _ => false
  end.

(** The calls that carry a sub-query. *)
Definition carriesSubQuery (c : knex_call) : bool :=
  match c with
  | KWhereIn _ _ => true
  | _ => false
  end.

(** Every call of a compiled query: its own, those of the sub-queries of its
    [whereIn] filters and those of the query it is derived from. *)
Fixpoint allCalls (q : native_query) : list knex_call :=
  match q with
  | Query f cs =>
      cs ++
      flat_map (fun c =>
                  match c with
                  | KWhereIn _ sub => allCalls sub
                  | _ => []
                  end) cs ++
      match f with
      | FromTable _ => []
      | FromSubquery q' _ => allCalls q'
      end
  end.

(** The place of a universal clause in the fixed order of application; the
    operation methods and their modifiers have none. *)
Definition clauseRank (c : knex_call) : option nat :=
  match c with
  | KLimit _ => Some 1
  | KOffset _ => Some 2
  | KOrderBy _ => Some 3
  | KFirst => Some 4
  | KGroupBy _ => Some 5
  | KApplyWhere _ => Some 6
  | KWhere _ => Some 7
  | KApplyJoins _ => Some 8
  | _ => None
  end.

(** ** The query state *)

(** The [state] object of a builder.  [st_type] is [None] when [state.type] is
    falsy; [st_search] is [undefined] until [search] is called.  The fields
    that start as [[]] hold arrays throughout, the order-by entries being
    [{ column, order }] records; the setters store what they are given
    unchecked, and an ordering or a grouping that is not an array is outside
    this typing. *)
Record State : Type := mkState {
  st_type : option kind;
  st_select : list value;
  st_count : value;
  st_first : bool;
  st_data : value;
  st_where : list value;
  st_joins : list value;
  st_populate : value;
  st_limit : value;
  st_offset : value;
  st_orderBy : list order_entry;
  st_groupBy : list value;
  st_search : value
}.

(** Assignments [state.f = x]. *)
Definition set_type (x : option kind) (s : State) : State :=
  {| st_type := x;
     st_select := st_select s;
     st_count := st_count s;
     st_first := st_first s;
     st_data := st_data s;
     st_where := st_where s;
     st_joins := st_joins s;
     st_populate := st_populate s;
     st_limit := st_limit s;
     st_offset := st_offset s;
     st_orderBy := st_orderBy s;
     st_groupBy := st_groupBy s;
     st_search := st_search s |}.

Definition set_select (x : list value) (s : State) : State :=
  {| st_type := st_type s;
     st_select := x;
     st_count := st_count s;
     st_first := st_first s;
     st_data := st_data s;
     st_where := st_where s;
     st_joins := st_joins s;
     st_populate := st_populate s;
     st_limit := st_limit s;
     st_offset := st_offset s;
     st_orderBy := st_orderBy s;
     st_groupBy := st_groupBy s;
     st_search := st_search s |}.

Definition set_count (x : value) (s : State) : State :=
  {| st_type := st_type s;
     st_select := st_select s;
     st_count := x;
     st_first := st_first s;
     st_data := st_data s;
     st_where := st_where s;
     st_joins := st_joins s;
     st_populate := st_populate s;
     st_limit := st_limit s;
     st_offset := st_offset s;
     st_orderBy := st_orderBy s;
     st_groupBy := st_groupBy s;
     st_search := st_search s |}.

Definition set_first (x : bool) (s : State) : State :=
  {| st_type := st_type s;
     st_select := st_select s;
     st_count := st_count s;
     st_first := x;
     st_data := st_data s;
     st_where := st_where s;
     st_joins := st_joins s;
     st_populate := st_populate s;
     st_limit := st_limit s;
     st_offset := st_offset s;
     st_orderBy := st_orderBy s;
     st_groupBy := st_groupBy s;
     st_search := st_search s |}.

Definition set_data (x : value) (s : State) : State :=
  {| st_type := st_type s;
     st_select := st_select s;
     st_count := st_count s;
     st_first := st_first s;
     st_data := x;
     st_where := st_where s;
     st_joins := st_joins s;
     st_populate := st_populate s;
     st_limit := st_limit s;
     st_offset := st_offset s;
     st_orderBy := st_orderBy s;
     st_groupBy := st_groupBy s;
     st_search := st_search s |}.

Definition set_where (x : list value) (s : State) : State :=
  {| st_type := st_type s;
     st_select := st_select s;
     st_count := st_count s;
     st_first := st_first s;
     st_data := st_data s;
     st_where := x;
     st_joins := st_joins s;
     st_populate := st_populate s;
     st_limit := st_limit s;
     st_offset := st_offset s;
     st_orderBy := st_orderBy s;
     st_groupBy := st_groupBy s;
     st_search := st_search s |}.

Definition set_joins (x : list value) (s : State) : State :=
  {| st_type := st_type s;
     st_select := st_select s;
     st_count := st_count s;
     st_first := st_first s;
     st_data := st_data s;
     st_where := st_where s;
     st_joins := x;
     st_populate := st_populate s;
     st_limit := st_limit s;
     st_offset := st_offset s;
     st_orderBy := st_orderBy s;
     st_groupBy := st_groupBy s;
     st_search := st_search s |}.

Definition set_populate (x : value) (s : State) : State :=
  {| st_type := st_type s;
     st_select := st_select s;
     st_count := st_count s;
     st_first := st_first s;
     st_data := st_data s;
     st_where := st_where s;
     st_joins := st_joins s;
     st_populate := x;
     st_limit := st_limit s;
     st_offset := st_offset s;
     st_orderBy := st_orderBy s;
     st_groupBy := st_groupBy s;
     st_search := st_search s |}.

Definition set_limit (x : value) (s : State) : State :=
  {| st_type := st_type s;
     st_select := st_select s;
     st_count := st_count s;
     st_first := st_first s;
     st_data := st_data s;
     st_where := st_where s;
     st_joins := st_joins s;
     st_populate := st_populate s;
     st_limit := x;
     st_offset := st_offset s;
     st_orderBy := st_orderBy s;
     st_groupBy := st_groupBy s;
     st_search := st_search s |}.

Definition set_offset (x : value) (s : State) : State :=
  {| st_type := st_type s;
     st_select := st_select s;
     st_count := st_count s;
     st_first := st_first s;
     st_data := st_data s;
     st_where := st_where s;
     st_joins := st_joins s;
     st_populate := st_populate s;
     st_limit := st_limit s;
     st_offset := x;
     st_orderBy := st_orderBy s;
     st_groupBy := st_groupBy s;
     st_search := st_search s |}.

Definition set_orderBy (x : list order_entry) (s : State) : State :=
  {| st_type := st_type s;
     st_select := st_select s;
     st_count := st_count s;
     st_first := st_first s;
     st_data := st_data s;
     st_where := st_where s;
     st_joins := st_joins s;
     st_populate := st_populate s;
     st_limit := st_limit s;
     st_offset := st_offset s;
     st_orderBy := x;
     st_groupBy := st_groupBy s;
     st_search := st_search s |}.

Definition set_groupBy (x : list value) (s : State) : State :=
  {| st_type := st_type s;
     st_select := st_select s;
     st_count := st_count s;
     st_first := st_first s;
     st_data := st_data s;
     st_where := st_where s;
     st_joins := st_joins s;
     st_populate := st_populate s;
     st_limit := st_limit s;
     st_offset := st_offset s;
     st_orderBy := st_orderBy s;
     st_groupBy := x;
     st_search := st_search s |}.

Definition set_search (x : value) (s : State) : State :=
  {| st_type := st_type s;
     st_select := st_select s;
     st_count := st_count s;
     st_first := st_first s;
     st_data := st_data s;
     st_where := st_where s;
     st_joins := st_joins s;
     st_populate := st_populate s;
     st_limit := st_limit s;
     st_offset := st_offset s;
     st_orderBy := st_orderBy s;
     st_groupBy := st_groupBy s;
     st_search := x |}.

(** The state a builder starts from. *)
Definition initialState : State :=
  {| st_type := Some Select;
     st_select := [];
     st_count := VNull;
     st_first := false;
     st_data := VNull;
     st_where := [];
     st_joins := [];
     st_populate := VNull;
     st_limit := VNull;
     st_offset := VNull;
     st_orderBy := [];
     st_groupBy := [];
     st_search := VUndefined |}.

(** ** The builder *)

(** Calls made on the database handle itself rather than on a native query. *)
Inductive db_call : Type :=
| DbTruncate.

(** A builder: its [alias] property, the private alias [counter], the private
    [state], and the calls it has made on [db]. *)
Record QueryBuilder : Type := mkBuilder {
  alias : string;
  counter : nat;
  state : State;
  dbCalls : list db_call
}.

Definition onState (f : State -> State) (qb : QueryBuilder) : QueryBuilder :=
  {| alias := alias qb; counter := counter qb;
     state := f (state qb); dbCalls := dbCalls qb |}.

Definition logDb (c : db_call) (qb : QueryBuilder) : QueryBuilder :=
  {| alias := alias qb; counter := counter qb;
     state := state qb; dbCalls := dbCalls qb ++ [c] |}.

(** Errors thrown by the builder and by the helpers it calls. *)
Inductive error : Type :=
| Error (message : string)
| TypeError (message : string).

(** The outcome of a method that may throw: the builder is threaded through
    both the normal and the exceptional exit, since the mutations made before a
    throw persist.  [OutOfFuel] is the outcome of a recursion cut short. *)
Inductive outcome (A : Type) : Type :=
| Ret (a : A) (qb : QueryBuilder)
| Throw (e : error) (qb : QueryBuilder)
| OutOfFuel.

Arguments Ret {A} a qb.
Arguments Throw {A} e qb.
Arguments OutOfFuel {A}.

Definition M (A : Type) : Type := QueryBuilder -> outcome A.

Definition ret {A : Type} (a : A) : M A := fun qb => Ret a qb.

Definition bind {A B : Type} (m : M A) (k : A -> M B) : M B :=
  fun qb =>
    match m qb with
    | Ret a qb' => k a qb'
    | Throw e qb' => Throw e qb'
    | OutOfFuel => OutOfFuel
    end.

Definition throw {A : Type} (e : error) : M A := fun qb => Throw e qb.

Definition get : M QueryBuilder := fun qb => Ret qb qb.

Definition modify (f : QueryBuilder -> QueryBuilder) : M unit :=
  fun qb => Ret tt (f qb).

Declare Scope qb_scope.
Delimit Scope qb_scope with qb.
Notation "x <- m ;; k" := (bind m (fun x => k))
  (at level 61, m at next level, right associativity) : qb_scope.
Notation "m ;;; k" := (bind m (fun _ => k))
  (at level 61, right associativity) : qb_scope.

(** The functions of [./helpers] that rewrite the builder's descriptors.  Each
    receives the builder itself ([{ qb: this, uid, db }]) and may call its
    methods or throw, so each is a computation over the builder. *)
Class Helpers : Type := {
  processOrderBy : list order_entry -> M (list order_entry);
  processWhere : list value -> M (list value);
  processPopulate : value -> M value
}.

(** A sample instance: processors that return their descriptor as it is and
    leave the builder alone. *)
Definition plainHelpers : Helpers :=
  {| processOrderBy := fun o => ret o;
     processWhere := fun w => ret w;
     processPopulate := fun p => ret p |}.

(** Entity metadata, [db.metadata.get(uid)], and the dialect descriptor. *)
Record Metadata : Type := mkMeta {
  tableName : string;
  attributes : list (string * value)
}.

Record Dialect : Type := mkDialect {
  useReturning : bool
}.

(** ** The methods of the builder *)

Section Builder.

Context {helpers : Helpers}.
Variable meta : Metadata.
Variable dialect : Dialect.

Local Open Scope qb_scope.

(** [`t${n}`] *)
Definition aliasName (n : nat) : string :=
  "t" ++ NilZero.string_of_uint (Nat.to_uint n).

(** [getAlias = () => `t${counter++}`] *)
Definition getAlias : M string :=
  fun qb =>
    Ret (aliasName (counter qb))
        {| alias := alias qb; counter := S (counter qb);
           state := state qb; dbCalls := dbCalls qb |}.

(** The builder returned by [createQueryBuilder]: its alias is the first one
    the allocator issues. *)
Definition createQueryBuilder : QueryBuilder :=
  {| alias := aliasName 0; counter := 1;
     state := initialState; dbCalls := [] |}.

Definition select (args : value) : QueryBuilder -> QueryBuilder :=
  onState (fun s => set_select (uniq (castArray args)) (set_type (Some Select) s)).

Definition addSelect (args : value) : QueryBuilder -> QueryBuilder :=
  onState (fun s => set_select (uniq (st_select s ++ castArray args)) s).

Definition insert (data : value) : QueryBuilder -> QueryBuilder :=
  onState (fun s => set_data data (set_type (Some Insert) s)).

Definition delete : QueryBuilder -> QueryBuilder :=
  onState (set_type (Some Delete)).

Definition update (data : value) : QueryBuilder -> QueryBuilder :=
  onState (fun s => set_data data (set_type (Some Update) s)).

(** [count(count = '*')] *)
Definition count (c : value) : QueryBuilder -> QueryBuilder :=
  let c := match c with VUndefined => VStr "*" | _ => c end in
  onState (fun s => set_count c (set_type (Some Count) s)).

(** [where(where = {})]; the only setter that may throw. *)
Definition where_ (w : value) : M unit :=
  let w := match w with VUndefined => VObject [] | _ => w end in
  if negb (isPlainObject w)
  then throw (Error "Where must be an object")
  else modify (onState (fun s => set_where (st_where s ++ [w]) s)).

Definition limit (n : value) : QueryBuilder -> QueryBuilder :=
  onState (set_limit n).

Definition offset (n : value) : QueryBuilder -> QueryBuilder :=
  onState (set_offset n).

Definition orderBy (o : list order_entry) : QueryBuilder -> QueryBuilder :=
  onState (set_orderBy o).

Definition groupBy (g : list value) : QueryBuilder -> QueryBuilder :=
  onState (set_groupBy g).

Definition populate (p : value) : QueryBuilder -> QueryBuilder :=
  onState (set_populate p).

Definition search (query : value) : QueryBuilder -> QueryBuilder :=
  onState (set_search query).

Definition first : QueryBuilder -> QueryBuilder :=
  onState (set_first true).

Definition join (j : value) : QueryBuilder -> QueryBuilder :=
  onState (fun s => set_joins (st_joins s ++ [j]) s).

(** [['select', 'count'].includes(state.type)] *)
Definition mustUseAlias (qb : QueryBuilder) : bool :=
  match st_type (state qb) with
  | Some Select | Some Count => true
  | _ => false
  end.

(** [aliasColumn(columnName, alias)]; [explicitAlias] is [None] when the
    second argument is omitted or nil. *)
Definition aliasColumn (columnName : value) (explicitAlias : option string)
           (qb : QueryBuilder) : value :=
  match columnName with
  | VStr name =>
      if containsDot name then columnName
      else
        match explicitAlias with
        | Some a => VStr (a ++ "." ++ name)
        | None =>
            if mustUseAlias qb then VStr (alias qb ++ "." ++ name)
            else columnName
        end
  | _ => columnName
  end.

(** [['delete', 'update'].includes(state.type) && state.joins.length > 0] *)
Definition shouldUseSubQuery (qb : QueryBuilder) : bool :=
  match st_type (state qb) with
  | Some Delete | Some Update => 0 <? length (st_joins (state qb))
  | _ => false
  end.

(** [processState]: each descriptor is read from the state when its
    processor is called and overwritten with what the processor returns. *)
Definition processState : M unit :=
  qb <- get ;;
  o <- processOrderBy (st_orderBy (state qb)) ;;
  modify (onState (set_orderBy o)) ;;;
  qb <- get ;;
  w <- processWhere (st_where (state qb)) ;;
  modify (onState (set_where w)) ;;;
  qb <- get ;;
  p <- processPopulate (st_populate (state qb)) ;;
  modify (onState (set_populate p)).

(** The table a compiled query is bound to. *)
Definition aliasedTableName (qb : QueryBuilder) : table_ref :=
  if mustUseAlias qb then Aliased (alias qb) (tableName meta)
  else Table (tableName meta).

(** [switch (state.type)]: the operation-specific clause.  The select case
    also rewrites [state.select]; the truncate case calls [db.truncate()]
    and leaves the native query alone. *)
Definition operationClause (q : native_query) : M native_query :=
  fun qb =>
    match st_type (state qb) with
    | Some Select =>
        let qb1 :=
          if length (st_select (state qb)) =? 0
          then onState (set_select [VStr "*"]) qb
          else qb in
        let s1 := state qb1 in
        if (0 <? length (st_joins s1)) && (length (st_groupBy s1) =? 0)
        then
          let q1 := call (KDistinct (aliasColumn (VStr "id") None qb1)) q in
          let qb2 :=
            onState (set_select (map column (st_orderBy s1) ++ st_select s1))
                    qb1 in
          Ret (call (KSelect (map (fun c => aliasColumn c None qb2)
                                  (st_select (state qb2)))) q1) qb2
        else
          Ret (call (KSelect (map (fun c => aliasColumn c None qb1)
                                  (st_select s1))) q) qb1
    | Some Count =>
        Ret (call (KCount (Some (st_count (state qb)))) q) qb
    | Some Insert =>
        let q1 := call (KInsert (st_data (state qb))) q in
        if useReturning dialect && has "id" (attributes meta)
        then Ret (call (KReturning "id") q1) qb
        else Ret q1 qb
    | Some Update =>
        Ret (call (KUpdate (st_data (state qb))) q) qb
    | Some Delete =>
        Ret (call KDelete q) qb
    | Some Truncate =>
        Ret q (logDb DbTruncate qb)
    | None =>
        Ret q qb
    end.

(** [if (cond) { qb.m(...) }] *)
Definition callIf (cond : bool) (c : knex_call) (q : native_query) :
  native_query :=
  if cond then call c q else q.

(** The clauses applied whatever the operation, from [state.limit] down to
    the joins. *)
Definition universalClauses (q : native_query) (qb : QueryBuilder) :
  native_query :=
  let s := state qb in
  let q := callIf (truthy (st_limit s)) (KLimit (st_limit s)) q in
  let q := callIf (truthy (st_offset s)) (KOffset (st_offset s)) q in
  let q := callIf (0 <? length (st_orderBy s)) (KOrderBy (st_orderBy s)) q in
  let q := callIf (st_first s) KFirst q in
  let q := callIf (0 <? length (st_groupBy s)) (KGroupBy (st_groupBy s)) q in
  let q := callIf (truthy (VArray (st_where s))) (KApplyWhere (st_where s)) q in
  let q := callIf (truthy (st_search s))
                  (KWhere (ApplySearch (st_search s) (alias qb))) q in
  callIf (0 <? length (st_joins s)) (KApplyJoins (st_joins s)) q.

(** [if (!state.type) { this.select('*') }] *)
Definition defaultKind (qb : QueryBuilder) : QueryBuilder :=
  match st_type (state qb) with
  | None => select (VStr "*") qb
  | Some _ => qb
  end.

(** [getKnexQuery] and [runSubQuery] call each other; [fuel] bounds the depth
    of the calls. *)
Fixpoint getKnexQuery (fuel : nat) (qb : QueryBuilder) {struct fuel} :
  outcome native_query :=
  match fuel with
  | O => OutOfFuel
  | S fuel' =>
      let qb := defaultKind qb in
      let q := connection (aliasedTableName qb) in
      if shouldUseSubQuery qb
      then runSubQuery fuel' qb
      else
        (processState ;;;
         q <- operationClause q ;;
         qb' <- get ;;
         ret (universalClauses q qb')) qb
  end

with runSubQuery (fuel : nat) (qb : QueryBuilder) {struct fuel} :
  outcome native_query :=
  match fuel with
  | O => OutOfFuel
  | S fuel' =>
      match getKnexQuery fuel' (select (VStr "id") qb) with
      | Ret subQB qb' =>
          let nestedSubQuery :=
            Query (FromSubquery subQB "subQuery") [KSelect [VStr "id"]] in
          match st_type (state qb') with
          | Some k =>
              Ret (call (KWhereIn "id" nestedSubQuery)
                        (call (callNoArgs k)
                              (connection (Table (tableName meta)))))
                  qb'
          | None =>
              Throw (TypeError "db.connection(...)[state.type] is not a function")
                    qb'
          end
      | Throw e qb' => Throw e qb'
      | OutOfFuel => OutOfFuel
      end
  end.

(** One compilation: [getKnexQuery] calls [runSubQuery] at most once, which
    calls [getKnexQuery] once more. *)
Definition compile (qb : QueryBuilder) : outcome native_query :=
  getKnexQuery 3 qb.

(** *** Sequences of setter calls *)

(** The setters that fix the operation kind. *)
Inductive kind_call : Type :=
| CallSelect (args : value)
| CallInsert (data : value)
| CallUpdate (data : value)
| CallDelete
| CallCount (c : value).

Definition runKindCall (qb : QueryBuilder) (c : kind_call) : QueryBuilder :=
  match c with
  | CallSelect args => select args qb
  | CallInsert data => insert data qb
  | CallUpdate data => update data qb
  | CallDelete => delete qb
  | CallCount c => count c qb
  end.

Definition runKindCalls (cs : list kind_call) (qb : QueryBuilder) :
  QueryBuilder :=
  fold_left runKindCall cs qb.

Definition kindOfCall (c : kind_call) : kind :=
  match c with
  | CallSelect _ => Select
  | CallInsert _ => Insert
  | CallUpdate _ => Update
  | CallDelete => Delete
  | CallCount _ => Count
  end.

(** The kind named by the last call of a sequence, [Select] when the
    sequence is empty. *)
Definition lastKind (cs : list kind_call) : kind :=
  last (map kindOfCall cs) Select.

(** The setters of the column list. *)
Inductive select_call : Type :=
| Selecting (args : value)
| AddingSelect (args : value).

Definition runSelectCall (qb : QueryBuilder) (c : select_call) :
  QueryBuilder :=
  match c with
  | Selecting args => select args qb
  | AddingSelect args => addSelect args qb
  end.

Definition runSelectCalls (cs : list select_call) (qb : QueryBuilder) :
  QueryBuilder :=
  fold_left runSelectCall cs qb.

(** The columns a sequence of calls asks for, duplicates included: a
    [select] starts the list afresh, an [addSelect] extends it. *)
Fixpoint requestedColumns (cols : list value) (cs : list select_call) :
  list value :=
  match cs with
  | [] => cols
  | Selecting args :: rest => requestedColumns (castArray args) rest
  | AddingSelect args :: rest => requestedColumns (cols ++ castArray args) rest
  end.

(** *** Reading a compiled query *)

(** The builder on which a compilation runs the processors and emits the
    clauses: the builder itself, or the one [runSubQuery] prepares with
    [this.select('id')]. *)
Definition compiledBuilder (qb : QueryBuilder) : QueryBuilder :=
  if shouldUseSubQuery (defaultKind qb)
  then select (VStr "id") (defaultKind qb)
  else defaultKind qb.

Definition when (cond : bool) (c : knex_call) : list knex_call :=
  if cond then [c] else [].

(** The universal clauses a state gives rise to, as a list. *)
Definition universalTrace (qb : QueryBuilder) : list knex_call :=
  let s := state qb in
  when (truthy (st_limit s)) (KLimit (st_limit s)) ++
  when (truthy (st_offset s)) (KOffset (st_offset s)) ++
  when (0 <? length (st_orderBy s)) (KOrderBy (st_orderBy s)) ++
  when (st_first s) KFirst ++
  when (0 <? length (st_groupBy s)) (KGroupBy (st_groupBy s)) ++
  [KApplyWhere (st_where s)] ++
  when (truthy (st_search s)) (KWhere (ApplySearch (st_search s) (alias qb))) ++
  when (0 <? length (st_joins s)) (KApplyJoins (st_joins s)).

(** The column list a select compiles with: ['*'] stands in for an empty
    list. *)
Definition selectedOrStar (cols : list value) : list value :=
  match cols with
  | [] => [VStr "*"]
  | _ :: _ => cols
  end.

(** Two states that differ at most in their filters. *)
Definition sameButWhere (s s' : State) : Prop :=
  st_type s' = st_type s /\ st_select s' = st_select s /\
  st_count s' = st_count s /\ st_first s' = st_first s /\
  st_data s' = st_data s /\ st_joins s' = st_joins s /\
  st_populate s' = st_populate s /\ st_limit s' = st_limit s /\
  st_offset s' = st_offset s /\ st_orderBy s' = st_orderBy s /\
  st_groupBy s' = st_groupBy s /\ st_search s' = st_search s.

(** Two states that differ at most in their column list. *)
Definition sameButSelect (s s' : State) : Prop :=
  st_type s' = st_type s /\ st_where s' = st_where s /\
  st_count s' = st_count s /\ st_first s' = st_first s /\
  st_data s' = st_data s /\ st_joins s' = st_joins s /\
  st_populate s' = st_populate s /\ st_limit s' = st_limit s /\
  st_offset s' = st_offset s /\ st_orderBy s' = st_orderBy s /\
  st_groupBy s' = st_groupBy s /\ st_search s' = st_search s.

(** [before c d]: both are universal clauses and [c] comes strictly earlier
    in the order of application. *)
Definition before (c d : knex_call) : Prop :=
  match clauseRank c, clauseRank d with
  | Some i, Some j => i < j
  | _, _ => False
  end.

(** The reading of the [where] contract under which every input that is not
    a plain object is refused. *)
Definition whereRefusesAllNonMappings (w : value) (qb : QueryBuilder) : Prop :=
  (exists e qb', where_ w qb = Throw e qb') <-> isPlainObject w = false.

End Builder.

(** ** Sample entities and builders *)

Definition usersMeta : Metadata :=
  {| tableName := "users";
     attributes := [("id", VStr "increments"); ("name", VStr "string");
                    ("age", VStr "integer")] |}.

Definition returningDialect : Dialect := {| useReturning := true |}.
Definition plainDialect : Dialect := {| useReturning := false |}.

Definition adultsFilter : value :=
  VObject [("age", VObject [("$gt", VNum 18)])].

Definition rolesJoin : value :=
  VObject [("alias", VStr "t1"); ("referencedTable", VStr "roles")].

Definition byAgeDesc : list order_entry :=
  [{| column := VStr "age"; order := VStr "desc" |}].

(** The builder after [qb.where(w)], for an input that [where] accepts. *)
Definition filtered (w : value) (qb : QueryBuilder) : QueryBuilder :=
  match where_ w qb with
  | Ret _ qb' => qb'
  | _ => qb
  end.

(** [qb.delete().where({ age: { $gt: 18 } }).join(...)] *)
Definition deleteWithJoin : QueryBuilder :=
  join rolesJoin (filtered adultsFilter (delete createQueryBuilder)).

(** [qb.update({ name: 'a' }).join(...)] *)
Definition updateWithJoin : QueryBuilder :=
  join rolesJoin (update (VObject [("name", VStr "a")]) createQueryBuilder).

(** [qb.select(['name']).orderBy(...).limit(10).join(...)] *)
Definition selectWithJoin : QueryBuilder :=
  join rolesJoin
       (limit (VNum 10)
              (orderBy byAgeDesc
                       (select (VArray [VStr "name"]) createQueryBuilder))).

(** [qb.select(['name']).where({ age: { $gt: 18 } }).orderBy(...).limit(10)] *)
Definition adultNames : QueryBuilder :=
  limit (VNum 10)
        (orderBy byAgeDesc
                 (filtered adultsFilter
                           (select (VArray [VStr "name"]) createQueryBuilder))).

(** A sample instance: processors of which the one for the filters refuses
    every list that is not empty. *)
Definition refusingHelpers : Helpers :=
  {| processOrderBy := fun o => ret o;
     processWhere :=
       fun w =>
         match w with
         | [] => ret []
         | _ :: _ => throw (Error "Invalid filter")
         end;
     processPopulate := fun p => ret p |}.

(** ** Bulk configuration and sequences of method calls *)

(** The keys that [init] reads from its argument; a key that is absent is
    [undefined] ([None] for the two that hold arrays). *)
Record InitParams : Type := mkParams {
  p_q : value;
  p_where : value;
  p_select : value;
  p_limit : value;
  p_offset : value;
  p_orderBy : option (list order_entry);
  p_groupBy : option (list value);
  p_populate : value
}.

(** [init()] and [init({})] *)
Definition noParams : InitParams :=
  {| p_q := VUndefined; p_where := VUndefined; p_select := VUndefined;
     p_limit := VUndefined; p_offset := VUndefined; p_orderBy := None;
     p_groupBy := None; p_populate := VUndefined |}.

(** [if (!_.isNil(v)) { this.f(v) }] *)
Definition unlessNil (v : value) (f : value -> QueryBuilder -> QueryBuilder)
           (qb : QueryBuilder) : QueryBuilder :=
  if negb (isNil v) then f v qb else qb.

(** What [init] is called with: nothing (or [undefined]), for which the
    parameter defaults to [{}]; [null], which the default does not replace;
    or a value read through its eight keys (a value that has none of them
    reads as [noParams]). *)
Inductive init_argument : Type :=
| InitOmitted
| InitNull
| InitWith (params : InitParams).

Coercion InitWith : InitParams >-> init_argument.

(** [const { _q, where, ... } = params]: the keys of the argument, if it can
    be destructured. *)
Definition keysOf (arg : init_argument) : option InitParams :=
  match arg with
  | InitOmitted => Some noParams
  | InitNull => None
  | InitWith params => Some params
  end.

(** [init(params = {})]: the destructuring, which throws a [TypeError] on
    [null]; then the filter, the search term, the columns (['*'] when there
    is none), the paging, the ordering, the grouping and the population. *)
Definition init (arg : init_argument) : M unit :=
  match keysOf arg with
  | None =>
      throw (TypeError "Cannot destructure property '_q' of 'params' as it is null.")
  | Some params =>
      bind (if negb (isNil (p_where params))
            then where_ (p_where params)
            else ret tt)
           (fun _ =>
              modify (fun qb =>
                let qb := unlessNil (p_q params) search qb in
                let qb :=
                  if negb (isNil (p_select params))
                  then select (p_select params) qb
                  else select (VStr "*") qb in
                let qb := unlessNil (p_limit params) limit qb in
                let qb := unlessNil (p_offset params) offset qb in
                let qb :=
                  match p_orderBy params with
                  | Some o => orderBy o qb
                  | None => qb
                  end in
                let qb :=
                  match p_groupBy params with
                  | Some g => groupBy g qb
                  | None => qb
                  end in
                unlessNil (p_populate params) populate qb))
  end.

(** The calls a user of the builder can make to configure it. *)
Inductive method_call : Type :=
| DoSelect (args : value)
| DoAddSelect (args : value)
| DoInsert (data : value)
| DoDelete
| DoUpdate (data : value)
| DoCount (c : value)
| DoWhere (w : value)
| DoLimit (n : value)
| DoOffset (n : value)
| DoOrderBy (o : list order_entry)
| DoGroupBy (g : list value)
| DoPopulate (p : value)
| DoSearch (query : value)
| DoInit (arg : init_argument)
| DoFirst
| DoJoin (j : value)
| DoGetAlias.

(** One call; what it returns is the builder itself, except for [getAlias],
    whose alias is kept. *)
Definition runMethod (c : method_call) : M (list string) :=
  match c with
  | DoSelect args => bind (modify (select args)) (fun _ => ret [])
  | DoAddSelect args => bind (modify (addSelect args)) (fun _ => ret [])
  | DoInsert data => bind (modify (insert data)) (fun _ => ret [])
  | DoDelete => bind (modify delete) (fun _ => ret [])
  | DoUpdate data => bind (modify (update data)) (fun _ => ret [])
  | DoCount c => bind (modify (count c)) (fun _ => ret [])
  | DoWhere w => bind (where_ w) (fun _ => ret [])
  | DoLimit n => bind (modify (limit n)) (fun _ => ret [])
  | DoOffset n => bind (modify (offset n)) (fun _ => ret [])
  | DoOrderBy o => bind (modify (orderBy o)) (fun _ => ret [])
  | DoGroupBy g => bind (modify (groupBy g)) (fun _ => ret [])
  | DoPopulate p => bind (modify (populate p)) (fun _ => ret [])
  | DoSearch query => bind (modify (search query)) (fun _ => ret [])
  | DoInit arg => bind (init arg) (fun _ => ret [])
  | DoFirst => bind (modify first) (fun _ => ret [])
  | DoJoin j => bind (modify (join j)) (fun _ => ret [])
  | DoGetAlias => bind getAlias (fun a => ret [a])
  end.

(** A sequence of calls, up to the first that throws; the aliases issued on
    the way are collected. *)
Fixpoint runMethods (cs : list method_call) : M (list string) :=
  match cs with
  | [] => ret []
  | c :: rest =>
      bind (runMethod c)
           (fun issued =>
              bind (runMethods rest) (fun more => ret (issued ++ more)))
  end.

(** The calls that are not well formed: a [where] given anything but
    [undefined] or a plain object, an [init] whose [where] key is neither nil
    nor a plain object, and [init(null)]. *)
Definition malformed (c : method_call) : bool :=
  match c with
  | DoWhere w =>
      match w with
      | VUndefined => false
      | _ => negb (isPlainObject w)
      end
  | DoInit arg =>
      match keysOf arg with
      | None => true
      | Some params =>
          negb (isNil (p_where params)) && negb (isPlainObject (p_where params))
      end
  | _ => false
  end.

(** The error a call that is not well formed throws. *)
Definition errorOf (c : method_call) : error :=
  match c with
  | DoInit InitNull =>
      TypeError "Cannot destructure property '_q' of 'params' as it is null."
  | _ => Error "Where must be an object"
  end.

(** How many aliases a sequence of calls asks for. *)
Definition isGetAlias (c : method_call) : bool :=
  match c with
  | DoGetAlias => true
  | _ => false
  end.

Definition aliasRequests (cs : list method_call) : nat :=
  length (filter isGetAlias cs).

(** The kinds a setter can give a builder. *)
Definition settable (k : kind) : bool :=
  match k with
  | Truncate => false
  | _ => true
  end.

(** [extends l l']: [l'] is [l] with further elements appended. *)
Definition extends {A : Type} (l l' : list A) : Prop :=
  exists more, l' = l ++ more.

(** The builder an outcome carries, if it is not a recursion cut short. *)
Definition builderOf {A : Type} (o : outcome A) : option QueryBuilder :=
  match o with
  | Ret _ qb => Some qb
  | Throw _ qb => Some qb
  | OutOfFuel => None
  end.

(** What one call can do to a builder, whether it returns or throws. *)
Definition step_effect (qb qb' : QueryBuilder) : Prop :=
  alias qb' = alias qb /\
  counter qb <= counter qb' /\
  dbCalls qb' = dbCalls qb /\
  (st_type (state qb') = st_type (state qb) \/
   exists k, st_type (state qb') = Some k /\ settable k = true) /\
  extends (st_where (state qb)) (st_where (state qb')) /\
  (forall w, In w (st_where (state qb')) ->
             In w (st_where (state qb)) \/ isPlainObject w = true) /\
  extends (st_joins (state qb)) (st_joins (state qb')) /\
  (st_first (state qb) = true -> st_first (state qb') = true) /\
  (Deduplicated (st_select (state qb)) ->
   Deduplicated (st_select (state qb'))).

(** * Properties *)

(** ** Strings and traces *)

Lemma length_append (a b : string) :
  String.length (a ++ b)%string = String.length a + String.length b.
Proof.
  induction a as [| c a IH]; simpl.
  - reflexivity.
  - now rewrite IH.
Qed.

Lemma qualified_differs (a name : string) : (a ++ "." ++ name)%string <> name.
Proof.
  intro H.
  apply (f_equal String.length) in H.
  rewrite !length_append in H. simpl in H. lia.
Qed.

Lemma calls_of_call c q : calls_of (call c q) = calls_of q ++ [c].
Proof. now destruct q. Qed.

Lemma from_of_call c q : from_of (call c q) = from_of q.
Proof. now destruct q. Qed.

Lemma calls_of_callIf b c q : calls_of (callIf b c q) = calls_of q ++ when b c.
Proof.
  destruct b; simpl.
  - apply calls_of_call.
  - now rewrite app_nil_r.
Qed.

Lemma from_of_callIf b c q : from_of (callIf b c q) = from_of q.
Proof. destruct b; simpl; [apply from_of_call | reflexivity]. Qed.

(** The conditional calls of [universalClauses] leave the trace of the query
    they are applied to in front of the clauses they add. *)
Lemma calls_of_universalClauses q qb :
  calls_of (universalClauses q qb) = calls_of q ++ universalTrace qb.
Proof.
  unfold universalClauses, universalTrace.
  rewrite !calls_of_callIf, <- !app_assoc.
  reflexivity.
Qed.

Lemma from_of_universalClauses q qb :
  from_of (universalClauses q qb) = from_of q.
Proof.
  unfold universalClauses.
  now rewrite !from_of_callIf.
Qed.

Lemma In_when b c x : In x (when b c) <-> b = true /\ x = c.
Proof.
  destruct b; simpl; intuition congruence.
Qed.

(** ** The column resolver *)

Section Resolver.

Variable qb : QueryBuilder.

Lemma mustUseAlias_kinds :
  mustUseAlias qb = true <->
  st_type (state qb) = Some Select \/ st_type (state qb) = Some Count.
Proof.
  unfold mustUseAlias.
  destruct (st_type (state qb)) as [[]|]; split; intros H;
    try reflexivity; try discriminate; auto;
    destruct H; discriminate.
Qed.

(** C2.  The column resolver: a column that is not a string, or a string
    that already holds the separator ".", is returned as it is; with an
    explicit alias the bare column is prefixed by that alias; without one it
    is prefixed by the builder's alias exactly when the kind is Select or
    Count, and returned bare for Insert, Update, Delete and Truncate. *)
Theorem aliasColumn_resolution (c : value) (explicitAlias : option string) :
  (isString c = false -> aliasColumn c explicitAlias qb = c) /\
  (forall name, c = VStr name -> containsDot name = true ->
                aliasColumn c explicitAlias qb = c) /\
  (forall name a, c = VStr name -> containsDot name = false ->
                  explicitAlias = Some a ->
                  aliasColumn c explicitAlias qb = VStr (a ++ "." ++ name)) /\
  (forall name, c = VStr name -> containsDot name = false ->
                explicitAlias = None ->
                (aliasColumn c explicitAlias qb = VStr (alias qb ++ "." ++ name)
                 <-> st_type (state qb) = Some Select \/
                     st_type (state qb) = Some Count) /\
                (forall k, st_type (state qb) = Some k ->
                           k = Insert \/ k = Update \/ k = Delete \/ k = Truncate ->
                           aliasColumn c explicitAlias qb = c)).
Proof.
  split; [| split; [| split]].
  - destruct c; simpl; intros H; try reflexivity; discriminate.
  - intros name -> Hdot. simpl. now rewrite Hdot.
  - intros name a -> Hdot ->. simpl. now rewrite Hdot.
  - intros name -> Hdot ->. simpl. rewrite Hdot.
    split; [split |].
    + intros H. apply mustUseAlias_kinds.
      destruct (mustUseAlias qb); [reflexivity |].
      injection H as H. symmetry in H. now apply qualified_differs in H.
    + intros H. apply mustUseAlias_kinds in H. now rewrite H.
    + intros k Hk Hcases. unfold mustUseAlias. rewrite Hk.
      destruct Hcases as [-> | [-> | [-> | ->]]]; reflexivity.
Qed.

End Resolver.

Lemma aliasColumn_resolution_witness :
  aliasColumn (VRaw 7) None createQueryBuilder = VRaw 7 /\
  aliasColumn (VStr "t1.name") None createQueryBuilder = VStr "t1.name" /\
  aliasColumn (VStr "name") (Some "t4") createQueryBuilder = VStr "t4.name" /\
  aliasColumn (VStr "name") None createQueryBuilder = VStr "t0.name" /\
  aliasColumn (VStr "name") None (update VNull createQueryBuilder) = VStr "name".
Proof.
  split; [| split; [| split; [| split]]].
  - destruct (aliasColumn_resolution createQueryBuilder (VRaw 7) None)
      as (Hraw & _).
    apply Hraw. reflexivity.
  - destruct (aliasColumn_resolution createQueryBuilder (VStr "t1.name") None)
      as (_ & Hdot & _).
    apply (Hdot "t1.name"); reflexivity.
  - destruct (aliasColumn_resolution createQueryBuilder (VStr "name")
                                     (Some "t4"))
      as (_ & _ & Hexplicit & _).
    apply (Hexplicit "name" "t4"); reflexivity.
  - destruct (aliasColumn_resolution createQueryBuilder (VStr "name") None)
      as (_ & _ & _ & Hown).
    destruct (Hown "name" eq_refl eq_refl eq_refl) as ((_ & Hselect) & _).
    apply Hselect. left. reflexivity.
  - destruct (aliasColumn_resolution (update VNull createQueryBuilder)
                                     (VStr "name") None)
      as (_ & _ & _ & Hown).
    destruct (Hown "name" eq_refl eq_refl eq_refl) as (_ & Hbare).
    apply (Hbare Update); [reflexivity |].
    right. left. reflexivity.
Defined.

(** ** Deduplication *)

Lemma sameValueZero_eq x y : sameValueZero x y = true -> x = y.
Proof.
  destruct x, y; simpl; intros H; try discriminate H; try reflexivity.
  - apply Bool.eqb_prop in H. now subst.
  - apply Z.eqb_eq in H. now subst.
  - apply String.eqb_eq in H. now subst.
  - apply Nat.eqb_eq in H. now subst.
Qed.

Lemma Deduplicated_nil : Deduplicated [].
Proof.
  intros i j x y _ Hi. destruct i; discriminate Hi.
Qed.

Lemma Deduplicated_cons x l :
  Deduplicated (x :: l) <->
  (forall y, In y l -> sameValueZero x y = false) /\ Deduplicated l.
Proof.
  split.
  - intros H. split.
    + intros y Hy. apply In_nth_error in Hy. destruct Hy as [n Hn].
      apply (H 0 (S n) x y); [lia | reflexivity | exact Hn].
    + intros i j a b Hij Ha Hb.
      apply (H (S i) (S j) a b); [lia | exact Ha | exact Hb].
  - intros [Hhead Htail] i j a b Hij Ha Hb.
    destruct j as [| j]; [lia |].
    destruct i as [| i].
    + injection Ha as <-. apply Hhead. now apply nth_error_In with j.
    + apply (Htail i j a b); [lia | exact Ha | exact Hb].
Qed.

Lemma Deduplicated_filter p l : Deduplicated l -> Deduplicated (filter p l).
Proof.
  induction l as [| x l IH]; intros H; simpl; [exact H |].
  apply Deduplicated_cons in H. destruct H as [Hhead Htail].
  destruct (p x); [| now apply IH].
  apply Deduplicated_cons. split; [| now apply IH].
  intros y Hy. apply filter_In in Hy. now apply Hhead.
Qed.

(** The first occurrences of a list hold no value twice. *)
Lemma Deduplicated_firstSeen l : Deduplicated (firstSeen l).
Proof.
  induction l as [| x l IH]; simpl; [apply Deduplicated_nil |].
  apply Deduplicated_cons. split.
  - intros y Hy. apply filter_In in Hy. destruct Hy as [_ Hy].
    now apply negb_true_iff in Hy.
  - now apply Deduplicated_filter.
Qed.

(** A list that holds no value twice is the list of its first occurrences. *)
Lemma firstSeen_Deduplicated l : Deduplicated l -> firstSeen l = l.
Proof.
  induction l as [| x l IH]; intros H; simpl; [reflexivity |].
  apply Deduplicated_cons in H. destruct H as [Hhead Htail].
  rewrite (IH Htail). f_equal.
  apply forallb_filter_id. apply forallb_forall.
  intros y Hy. now rewrite (Hhead y Hy).
Qed.

Lemma filter_filter_comm {A : Type} (p q : A -> bool) l :
  filter p (filter q l) = filter q (filter p l).
Proof.
  induction l as [| x l IH]; simpl; [reflexivity |].
  destruct (p x) eqn:Hp, (q x) eqn:Hq; simpl; rewrite ?Hp, ?Hq, IH; reflexivity.
Qed.

Lemma filter_filter_and {A : Type} (p q : A -> bool) l :
  filter p (filter q l) = filter (fun x => q x && p x) l.
Proof.
  induction l as [| x l IH]; simpl; [reflexivity |].
  destruct (q x) eqn:Hq; simpl; [destruct (p x) |]; now rewrite IH.
Qed.

Lemma firstSeen_filter p l : firstSeen (filter p l) = filter p (firstSeen l).
Proof.
  induction l as [| x l IH]; simpl; [reflexivity |].
  destruct (p x) eqn:Hp; simpl; rewrite IH.
  - now rewrite filter_filter_comm.
  - rewrite filter_filter_comm.
    symmetry. apply forallb_filter_id. apply forallb_forall.
    intros y Hy. apply filter_In in Hy. destruct Hy as [_ Hy].
    destruct (sameValueZero x y) eqn:Hxy; [| reflexivity].
    apply sameValueZero_eq in Hxy. congruence.
Qed.

Lemma includes_app seen x y :
  includes (seen ++ [x]) y = includes seen y || sameValueZero y x.
Proof.
  unfold includes. rewrite existsb_app. simpl. now rewrite orb_false_r.
Qed.

Lemma sameValueZero_sym x y : sameValueZero x y = sameValueZero y x.
Proof.
  destruct x, y; simpl; try reflexivity.
  - now destruct b, b0.
  - apply Z.eqb_sym.
  - apply String.eqb_sym.
  - apply Nat.eqb_sym.
Qed.

(** [_.uniq], started from a result that already holds [seen], appends the
    first occurrences of the values that [seen] does not include. *)
Lemma uniq_from seen l :
  fold_left uniqStep l seen =
  seen ++ firstSeen (filter (fun y => negb (includes seen y)) l).
Proof.
  revert seen. induction l as [| x l IH]; intros seen; simpl.
  - now rewrite app_nil_r.
  - unfold uniqStep at 2.
    destruct (includes seen x) eqn:Hx; simpl; [apply IH |].
    rewrite IH, <- app_assoc. simpl. do 2 f_equal.
    rewrite <- firstSeen_filter, filter_filter_and. f_equal.
    apply filter_ext. intros y.
    rewrite includes_app, negb_orb. f_equal. f_equal.
    apply sameValueZero_sym.
Qed.

(** [_.uniq] keeps the first occurrence of every value, in order. *)
Lemma uniq_firstSeen l : uniq l = firstSeen l.
Proof.
  unfold uniq. rewrite uniq_from. simpl. f_equal.
  apply forallb_filter_id. apply forallb_forall. reflexivity.
Qed.

Lemma uniq_idempotent l : uniq (uniq l) = uniq l.
Proof.
  rewrite !uniq_firstSeen.
  apply firstSeen_Deduplicated, Deduplicated_firstSeen.
Qed.

Lemma uniq_app l l' :
  uniq (l ++ l') =
  uniq l ++ firstSeen (filter (fun y => negb (includes (uniq l) y)) l').
Proof.
  unfold uniq at 1. rewrite fold_left_app. apply uniq_from.
Qed.

Lemma uniq_app_uniq l l' : uniq (uniq l ++ l') = uniq (l ++ l').
Proof.
  rewrite !uniq_app. now rewrite uniq_idempotent.
Qed.

(** ** The [where] setter *)

Lemma where_accepts (w given : value) (qb : QueryBuilder) :
  given = match w with VUndefined => VObject [] | _ => w end ->
  isPlainObject given = true ->
  where_ w qb =
  Ret tt (onState (fun s => set_where (st_where s ++ [given]) s) qb).
Proof.
  intros -> Hplain. unfold where_.
  now rewrite Hplain.
Qed.

Lemma where_refuses (w : value) (qb : QueryBuilder) :
  isPlainObject w = false -> w <> VUndefined ->
  where_ w qb = Throw (Error "Where must be an object") qb.
Proof.
  intros Hplain Hdef. unfold where_.
  destruct w; try reflexivity; try discriminate.
  now elim Hdef.
Qed.

(** C6, as stated, fails: [where(undefined)] is given something that is not a
    mapping and does not throw, since the parameter defaults to [{}]. *)
Lemma where_undefined_is_accepted :
  isPlainObject VUndefined = false /\
  where_ VUndefined createQueryBuilder =
  Ret tt (onState (set_where [VObject []]) createQueryBuilder) /\
  ~ whereRefusesAllNonMappings VUndefined createQueryBuilder.
Proof.
  split; [reflexivity | split; [reflexivity |]].
  intros [_ Hthrows].
  destruct (Hthrows eq_refl) as (e & qb' & H).
  discriminate H.
Qed.

(** C6, amended.  [where] throws, at the call itself, exactly when its input is
    neither [undefined] nor a plain object, and then changes nothing; a plain
    object is appended to the filters already there, an [undefined] input is
    replaced by the empty mapping and appended likewise, and no other field of
    the builder changes. *)
Theorem where_contract (w : value) (qb : QueryBuilder) :
  ((exists e qb', where_ w qb = Throw e qb') <->
   isPlainObject w = false /\ w <> VUndefined) /\
  (forall e qb', where_ w qb = Throw e qb' ->
                 e = Error "Where must be an object" /\ qb' = qb) /\
  (forall given,
      given = match w with VUndefined => VObject [] | _ => w end ->
      isPlainObject given = true ->
      exists qb',
        where_ w qb = Ret tt qb' /\
        st_where (state qb') = st_where (state qb) ++ [given] /\
        sameButWhere (state qb) (state qb') /\
        alias qb' = alias qb /\ counter qb' = counter qb /\
        dbCalls qb' = dbCalls qb).
Proof.
  split; [| split].
  - split.
    + intros (e & qb' & H).
      destruct w; simpl in H; try discriminate H;
        (split; [reflexivity | discriminate]).
    + intros [Hplain Hdef]. exists (Error "Where must be an object"), qb.
      now apply where_refuses.
  - intros e qb' H.
    destruct w; simpl in H; try discriminate H;
      injection H as <- <-; split; reflexivity.
  - intros given Hgiven Hplain.
    exists (onState (fun s => set_where (st_where s ++ [given]) s) qb).
    split; [now apply where_accepts |].
    simpl. repeat split.
Qed.

Lemma where_contract_witness :
  (exists qb',
      where_ adultsFilter (limit (VNum 10) createQueryBuilder) = Ret tt qb' /\
      st_where (state qb') = [adultsFilter] /\
      st_limit (state qb') = VNum 10) /\
  where_ (VStr "age > 18") createQueryBuilder =
  Throw (Error "Where must be an object") createQueryBuilder.
Proof.
  split.
  - destruct (where_contract adultsFilter (limit (VNum 10) createQueryBuilder))
      as (_ & _ & Haccepts).
    destruct (Haccepts adultsFilter eq_refl eq_refl)
      as (qb' & Hret & Hwhere & Hsame & _).
    exists qb'. split; [exact Hret | split; [exact Hwhere |]].
    destruct Hsame as (_ & _ & _ & _ & _ & _ & _ & Hlimit & _).
    exact Hlimit.
  - destruct (where_contract (VStr "age > 18") createQueryBuilder)
      as (Hthrows & Hwhich & _).
    destruct Hthrows as [_ Hthrows].
    destruct Hthrows as (e & qb' & H); [split; [reflexivity | discriminate] |].
    destruct (Hwhich e qb' H) as [-> ->].
    exact H.
Defined.

(** ** Compilation without a sub-query *)

Section Compilation.

Context {helpers : Helpers}.
Variable meta : Metadata.
Variable dialect : Dialect.

(** The operation clause never throws. *)
Lemma operationClause_returns q qb :
  exists q' qb', operationClause meta dialect q qb = Ret q' qb'.
Proof.
  unfold operationClause.
  destruct (st_type (state qb)) as [[]|]; eauto.
  - destruct (_ && _); eauto.
  - destruct (_ && _); eauto.
Qed.

(** One unit of fuel is enough when no sub-query is needed: the processors
    run, then the operation clause, then the universal clauses on the state
    the operation clause leaves. *)
Lemma getKnexQuery_direct fuel qb qb1 q1 qb2 :
  shouldUseSubQuery (defaultKind qb) = false ->
  processState (defaultKind qb) = Ret tt qb1 ->
  operationClause meta dialect
                  (connection (aliasedTableName meta (defaultKind qb))) qb1 =
  Ret q1 qb2 ->
  getKnexQuery meta dialect (S fuel) qb = Ret (universalClauses q1 qb2) qb2.
Proof.
  intros Hsub Hproc Hop.
  simpl. rewrite Hsub.
  unfold bind at 1. rewrite Hproc.
  unfold bind at 1. rewrite Hop.
  reflexivity.
Qed.

Lemma defaultKind_of_kind qb k :
  st_type (state qb) = Some k -> defaultKind qb = qb.
Proof.
  intros H. unfold defaultKind. now rewrite H.
Qed.

Lemma shouldUseSubQuery_defaultKind qb :
  shouldUseSubQuery (defaultKind qb) = shouldUseSubQuery qb.
Proof.
  unfold defaultKind.
  destruct (st_type (state qb)) as [k|] eqn:Hk; [reflexivity |].
  unfold shouldUseSubQuery. now rewrite Hk.
Qed.

(** The column resolver reads the alias and the kind of the builder and
    nothing else. *)
Lemma aliasColumn_ext c a qb qb' :
  alias qb' = alias qb -> st_type (state qb') = st_type (state qb) ->
  aliasColumn c a qb' = aliasColumn c a qb.
Proof.
  intros Halias Htype.
  unfold aliasColumn, mustUseAlias. now rewrite Halias, Htype.
Qed.

(** What the operation clause adds to a native query has no place among the
    universal clauses, and it changes no field of the state but the column
    list. *)
Lemma operationClause_shape q qb q' qb' :
  operationClause meta dialect q qb = Ret q' qb' ->
  (exists op, calls_of q' = calls_of q ++ op /\
              forall c, In c op -> clauseRank c = None) /\
  from_of q' = from_of q /\
  sameButSelect (state qb) (state qb') /\
  alias qb' = alias qb /\ counter qb' = counter qb.
Proof.
  unfold operationClause.
  destruct (st_type (state qb)) as [[]|] eqn:Hk.
  - destruct (length (st_select (state qb)) =? 0);
      destruct (_ && _); intros H; injection H as <- <-;
        rewrite ?calls_of_call, ?from_of_call, <- ?app_assoc; simpl;
          (split; [eexists; split; [reflexivity |];
                   intros c [<- | [<- | []]] || intros c [<- | []];
                   reflexivity
                  | repeat split; assumption || reflexivity]).
  - destruct (_ && _); intros H; injection H as <- <-;
      rewrite ?calls_of_call, ?from_of_call, <- ?app_assoc; simpl;
        (split; [eexists; split; [reflexivity |];
                 intros c [<- | [<- | []]] || intros c [<- | []];
                 reflexivity
                | repeat split; assumption || reflexivity]).
  - intros H; injection H as <- <-.
    rewrite calls_of_call, from_of_call.
    split; [eexists; split; [reflexivity |]; intros c [<- | []]; reflexivity
           | repeat split; assumption || reflexivity].
  - intros H; injection H as <- <-.
    rewrite calls_of_call, from_of_call.
    split; [eexists; split; [reflexivity |]; intros c [<- | []]; reflexivity
           | repeat split; assumption || reflexivity].
  - intros H; injection H as <- <-.
    rewrite calls_of_call, from_of_call.
    split; [eexists; split; [reflexivity |]; intros c [<- | []]; reflexivity
           | repeat split; assumption || reflexivity].
  - intros H; injection H as <- <-.
    split; [exists []; split; [now rewrite app_nil_r | intros c []]
           | repeat split; assumption || reflexivity].
  - intros H; injection H as <- <-.
    split; [exists []; split; [now rewrite app_nil_r | intros c []]
           | repeat split; assumption || reflexivity].
Qed.

Lemma getKnexQuery_direct_returns fuel qb qb1 :
  shouldUseSubQuery (defaultKind qb) = false ->
  processState (defaultKind qb) = Ret tt qb1 ->
  exists q1 qb2,
    operationClause meta dialect
                    (connection (aliasedTableName meta (defaultKind qb))) qb1 =
    Ret q1 qb2 /\
    getKnexQuery meta dialect (S fuel) qb = Ret (universalClauses q1 qb2) qb2.
Proof.
  intros Hsub Hproc.
  destruct (operationClause_returns
              (connection (aliasedTableName meta (defaultKind qb))) qb1)
    as (q1 & qb2 & Hop).
  exists q1, qb2. split; [exact Hop |].
  now apply getKnexQuery_direct with (qb1 := qb1).
Qed.

Lemma nonempty_length {A : Type} (l : list A) :
  (0 <? length l) = true <-> l <> [].
Proof.
  destruct l; simpl; split; intros H; try discriminate; try reflexivity.
  now elim H.
Qed.

(** *** The sub-query rewrite *)

Lemma defaultKind_idempotent qb : defaultKind (defaultKind qb) = defaultKind qb.
Proof.
  destruct (st_type (state qb)) as [k |] eqn:Hk.
  - now rewrite !(defaultKind_of_kind _ Hk).
  - assert (Hdef : defaultKind qb = select (VStr "*") qb)
      by (unfold defaultKind; now rewrite Hk).
    rewrite Hdef. reflexivity.
Qed.

Lemma getKnexQuery_defaultKind fuel qb :
  getKnexQuery meta dialect fuel (defaultKind qb) =
  getKnexQuery meta dialect fuel qb.
Proof.
  destruct fuel as [| fuel]; [reflexivity |].
  simpl. now rewrite defaultKind_idempotent.
Qed.

(** A select or count never goes through [runSubQuery]: one unit of fuel
    gives what any larger amount gives. *)
Lemma getKnexQuery_fuel_direct fuel qb :
  shouldUseSubQuery (defaultKind qb) = false ->
  getKnexQuery meta dialect (S fuel) qb = getKnexQuery meta dialect 1 qb.
Proof.
  intros Hsub. simpl. now rewrite Hsub.
Qed.

Lemma getKnexQuery_rewritten fuel qb :
  shouldUseSubQuery (defaultKind qb) = true ->
  getKnexQuery meta dialect (S fuel) qb =
  runSubQuery meta dialect fuel (defaultKind qb).
Proof.
  intros Hsub. simpl. now rewrite Hsub.
Qed.

Lemma runSubQuery_unfold fuel qb :
  runSubQuery meta dialect (S fuel) qb =
  match getKnexQuery meta dialect fuel (select (VStr "id") qb) with
  | Ret subQB qb' =>
      match st_type (state qb') with
      | Some k =>
          Ret (call (KWhereIn "id"
                              (Query (FromSubquery subQB "subQuery")
                                     [KSelect [VStr "id"]]))
                    (call (callNoArgs k)
                          (connection (Table (tableName meta)))))
              qb'
      | None =>
          Throw (TypeError "db.connection(...)[state.type] is not a function")
                qb'
      end
  | Throw e qb' => Throw e qb'
  | OutOfFuel => OutOfFuel
  end.
Proof. reflexivity. Qed.

(** Three units of fuel are all a compilation can use. *)
Lemma getKnexQuery_fuel fuel qb :
  getKnexQuery meta dialect (3 + fuel) qb = compile meta dialect qb.
Proof.
  unfold compile.
  destruct (shouldUseSubQuery (defaultKind qb)) eqn:Hsub.
  - change (3 + fuel) with (S (S (S fuel))).
    rewrite !getKnexQuery_rewritten by exact Hsub.
    rewrite !runSubQuery_unfold.
    rewrite (@getKnexQuery_fuel_direct fuel); reflexivity.
  - change (3 + fuel) with (S (2 + fuel)).
    rewrite (@getKnexQuery_fuel_direct (2 + fuel) qb Hsub).
    now rewrite (@getKnexQuery_fuel_direct 2 qb Hsub).
Qed.

(** The rewrite of a delete or update with joins: [this.select('id')] has
    made the kind [select] by the time [state.type] names the method of the
    outer query, so the outer query is a select over the base table, with no
    join, filtered by [id IN] the nested select of [id]. *)
Lemma runSubQuery_outer_kind fuel qb qb1 :
  st_type (state qb) = Some Delete \/ st_type (state qb) = Some Update ->
  st_joins (state qb) <> [] ->
  processState (select (VStr "id") qb) = Ret tt qb1 ->
  st_type (state qb1) = Some Select ->
  exists inner qb2,
    getKnexQuery meta dialect 1 (select (VStr "id") qb) = Ret inner qb2 /\
    getKnexQuery meta dialect (3 + fuel) qb =
    Ret (Query (FromTable (Table (tableName meta)))
               [KSelect [];
                KWhereIn "id" (Query (FromSubquery inner "subQuery")
                                     [KSelect [VStr "id"]])])
        qb2 /\
    st_type (state qb2) = Some Select.
Proof.
  intros Hk Hjoins Hproc Hk1.
  set (qb' := select (VStr "id") qb) in *.
  assert (Hsub' : shouldUseSubQuery (defaultKind qb') = false) by reflexivity.
  change (defaultKind qb') with qb' in Hsub'.
  destruct (@getKnexQuery_direct_returns 0 qb' qb1 Hsub' Hproc)
    as (q1 & qb2 & Hop & Hget).
  exists (universalClauses q1 qb2), qb2.
  split; [exact Hget |].
  destruct (operationClause_shape _ _ Hop) as (_ & _ & Hsame & _).
  destruct Hsame as (Htype & _). rewrite Hk1 in Htype.
  split; [| exact Htype].
  rewrite getKnexQuery_fuel. unfold compile.
  assert (Hdef : defaultKind qb = qb).
  { destruct Hk as [Hk | Hk]; now apply defaultKind_of_kind in Hk. }
  assert (Hsub : shouldUseSubQuery qb = true).
  { apply nonempty_length in Hjoins. unfold shouldUseSubQuery.
    destruct Hk as [-> | ->]; exact Hjoins. }
  assert (Hsub2 : shouldUseSubQuery (defaultKind qb) = true)
    by (rewrite shouldUseSubQuery_defaultKind; exact Hsub).
  rewrite (@getKnexQuery_rewritten 2 qb Hsub2).
  rewrite Hdef, (@runSubQuery_unfold 1 qb). fold qb'.
  rewrite Hget, Htype.
  reflexivity.
Qed.

(** *** The universal clauses *)

Lemma universalTrace_ranked qb c :
  In c (universalTrace qb) -> clauseRank c <> None.
Proof.
  unfold universalTrace.
  rewrite !in_app_iff, !In_when. simpl.
  intros H.
  repeat (destruct H as [H | H]);
    try (match type of H with _ /\ _ => destruct H as [_ H] end);
    try subst c; try discriminate; try contradiction.
Qed.

Lemma universalTrace_sorted qb : StronglySorted before (universalTrace qb).
Proof.
  unfold universalTrace.
  destruct (truthy (st_limit (state qb)));
    destruct (truthy (st_offset (state qb)));
    destruct (0 <? length (st_orderBy (state qb)));
    destruct (st_first (state qb));
    destruct (0 <? length (st_groupBy (state qb)));
    destruct (truthy (st_search (state qb)));
    destruct (0 <? length (st_joins (state qb)));
    simpl;
    repeat (constructor; [| repeat constructor; unfold before; simpl; lia]);
    constructor.
Qed.

Ltac trace_membership :=
  unfold universalTrace;
  rewrite !in_app_iff, !In_when; simpl;
  rewrite ?nonempty_length;
  split;
  [ intros H;
    repeat (destruct H as [H | H]);
    try contradiction;
    try discriminate H;
    try (match type of H with _ /\ _ => destruct H as [? H] end);
    try discriminate H;
    try (injection H as H; subst);
    auto
  | intros H;
    try (match type of H with _ /\ _ => destruct H as [-> H] end);
    try subst; tauto ].

Lemma In_universal_limit qb v :
  In (KLimit v) (universalTrace qb) <->
  v = st_limit (state qb) /\ truthy v = true.
Proof. trace_membership. Qed.

Lemma In_universal_offset qb v :
  In (KOffset v) (universalTrace qb) <->
  v = st_offset (state qb) /\ truthy v = true.
Proof. trace_membership. Qed.

Lemma In_universal_orderBy qb o :
  In (KOrderBy o) (universalTrace qb) <->
  o = st_orderBy (state qb) /\ o <> [].
Proof. trace_membership. Qed.

Lemma In_universal_first qb :
  In KFirst (universalTrace qb) <-> st_first (state qb) = true.
Proof. trace_membership. Qed.

Lemma In_universal_groupBy qb g :
  In (KGroupBy g) (universalTrace qb) <->
  g = st_groupBy (state qb) /\ g <> [].
Proof. trace_membership. Qed.

Lemma In_universal_where qb w :
  In (KApplyWhere w) (universalTrace qb) <-> w = st_where (state qb).
Proof. trace_membership. Qed.

Lemma In_universal_search qb g :
  In (KWhere g) (universalTrace qb) <->
  g = ApplySearch (st_search (state qb)) (alias qb) /\
  truthy (st_search (state qb)) = true.
Proof. trace_membership. Qed.

Lemma In_universal_joins qb j :
  In (KApplyJoins j) (universalTrace qb) <->
  j = st_joins (state qb) /\ j <> [].
Proof. trace_membership. Qed.

(** A query compiled without a sub-query holds none. *)
Lemma allCalls_flat t cs :
  (forall c, In c cs -> carriesSubQuery c = false) ->
  allCalls (Query (FromTable t) cs) = cs.
Proof.
  intros Hflat. simpl. rewrite app_nil_r.
  assert (Hnone : flat_map (fun c => match c with
                                     | KWhereIn _ sub => allCalls sub
                                     | _ => []
                                     end) cs = []).
  { induction cs as [| c cs IH]; [reflexivity |].
    simpl. rewrite IH by (intros d Hd; apply Hflat; now right).
    specialize (Hflat c (or_introl eq_refl)).
    destruct c; try reflexivity; discriminate Hflat. }
  rewrite Hnone. apply app_nil_r.
Qed.

(** Whenever the processors return on the builder that is compiled, leaving
    it a kind, the compilation returns: the query compiled directly is bound
    to the table and holds an operation clause followed by the universal
    clauses of the final state, and the result is that query or, for a delete
    or update with joins, the outer query that [runSubQuery] wraps around
    it. *)
Lemma compile_returns fuel qb qb1 :
  processState (compiledBuilder qb) = Ret tt qb1 ->
  st_type (state qb1) <> None ->
  exists inner qb2 op,
    sameButSelect (state qb1) (state qb2) /\
    allCalls inner = op ++ universalTrace qb2 /\
    (forall c, In c op -> clauseRank c = None /\ carriesSubQuery c = false) /\
    if shouldUseSubQuery (defaultKind qb)
    then
      exists k,
        st_type (state qb2) = Some k /\
        getKnexQuery meta dialect (3 + fuel) qb =
        Ret (Query (FromTable (Table (tableName meta)))
                   [callNoArgs k;
                    KWhereIn "id" (Query (FromSubquery inner "subQuery")
                                         [KSelect [VStr "id"]])])
            qb2
    else getKnexQuery meta dialect (3 + fuel) qb = Ret inner qb2.
Proof.
  intros Hproc Hk.
  assert (Hsub' : shouldUseSubQuery (defaultKind (compiledBuilder qb)) = false).
  { unfold compiledBuilder.
    destruct (shouldUseSubQuery (defaultKind qb)) eqn:Hsub; [reflexivity |].
    now rewrite shouldUseSubQuery_defaultKind. }
  assert (Hdef' : defaultKind (compiledBuilder qb) = compiledBuilder qb).
  { unfold compiledBuilder.
    destruct (shouldUseSubQuery (defaultKind qb)); [reflexivity |].
    apply defaultKind_idempotent. }
  rewrite <- Hdef' in Hproc.
  destruct (@getKnexQuery_direct_returns 0 (compiledBuilder qb) qb1 Hsub' Hproc)
    as (q1 & qb2 & Hop & Hget).
  destruct (operationClause_shape _ _ Hop)
    as ((op & Hcalls & Hop_rank) & Hfrom & Hsame & _).
  simpl in Hcalls, Hfrom.
  assert (Hplain : forall c, In c op ->
                             clauseRank c = None /\ carriesSubQuery c = false).
  { intros c Hc. split; [now apply Hop_rank |].
    rewrite <- Hcalls in Hc. clear - Hop Hc.
    unfold operationClause in Hop.
    destruct (st_type (state qb1)) as [[]|];
      repeat match type of Hop with
             | context [if ?b then _ else _] => destruct b
             end;
      injection Hop as <- _; simpl in Hc;
        repeat (destruct Hc as [<- | Hc]; [reflexivity |]); contradiction. }
  exists (universalClauses q1 qb2), qb2, op.
  split; [exact Hsame |].
  split.
  { remember (universalClauses q1 qb2) as q eqn:Hq.
    apply (f_equal calls_of) in Hq as Hqc.
    apply (f_equal from_of) in Hq as Hqf.
    rewrite calls_of_universalClauses, Hcalls in Hqc.
    rewrite from_of_universalClauses, Hfrom in Hqf.
    destruct q as [f cs]. simpl in Hqc, Hqf. subst f cs.
    apply allCalls_flat. intros c Hc. apply in_app_iff in Hc.
    destruct Hc as [Hc | Hc]; [now apply Hplain |].
    apply universalTrace_ranked in Hc.
    destruct c; try reflexivity. now elim Hc. }
  split; [exact Hplain |].
  destruct Hsame as (Htype & _).
  unfold compiledBuilder in Hget.
  destruct (shouldUseSubQuery (defaultKind qb)) eqn:Hsub.
  - destruct (st_type (state qb2)) as [k |] eqn:Hk2; [| congruence].
    exists k. split; [reflexivity |].
    rewrite getKnexQuery_fuel. unfold compile.
    rewrite (@getKnexQuery_rewritten 2 qb Hsub), (@runSubQuery_unfold 1).
    rewrite Hget, Hk2. reflexivity.
  - rewrite getKnexQuery_fuel. unfold compile.
    rewrite (@getKnexQuery_fuel_direct 2 qb Hsub).
    now rewrite <- getKnexQuery_defaultKind.
Qed.

(** C8.  A compilation that is not rewritten into a sub-query yields the
    operation clause followed by the universal clauses, which come in the
    order limit, offset, order-by, first, group-by, filters, search, joins;
    each is there exactly when the state asks for it, the search term as one
    nested predicate group next to the filters, which stay, and the joins
    last. *)
Theorem universal_clauses_in_order fuel qb qb1 :
  shouldUseSubQuery (defaultKind qb) = false ->
  processState (defaultKind qb) = Ret tt qb1 ->
  exists q qb2 op uni,
    getKnexQuery meta dialect (S fuel) qb = Ret q qb2 /\
    sameButSelect (state qb1) (state qb2) /\
    calls_of q = op ++ uni /\
    (forall c, In c op -> clauseRank c = None) /\
    (forall c, In c uni -> clauseRank c <> None) /\
    StronglySorted before uni /\
    (forall v, In (KLimit v) uni <->
               v = st_limit (state qb2) /\ truthy v = true) /\
    (forall v, In (KOffset v) uni <->
               v = st_offset (state qb2) /\ truthy v = true) /\
    (forall o, In (KOrderBy o) uni <->
               o = st_orderBy (state qb2) /\ o <> []) /\
    (In KFirst uni <-> st_first (state qb2) = true) /\
    (forall g, In (KGroupBy g) uni <->
               g = st_groupBy (state qb2) /\ g <> []) /\
    (forall w, In (KApplyWhere w) uni <-> w = st_where (state qb2)) /\
    (forall g, In (KWhere g) uni <->
               g = ApplySearch (st_search (state qb2)) (alias qb2) /\
               truthy (st_search (state qb2)) = true) /\
    (forall j, In (KApplyJoins j) uni <->
               j = st_joins (state qb2) /\ j <> []).
Proof.
  intros Hsub Hproc.
  destruct (getKnexQuery_direct_returns fuel qb Hsub Hproc)
    as (q1 & qb2 & Hop & Hget).
  destruct (operationClause_shape _ _ Hop)
    as ((op & Hcalls & Hop_rank) & _ & Hsame & _).
  exists (universalClauses q1 qb2), qb2, op, (universalTrace qb2).
  split; [exact Hget |].
  split; [exact Hsame |].
  split; [now rewrite calls_of_universalClauses, Hcalls |].
  split; [exact Hop_rank |].
  split; [intros c; apply universalTrace_ranked |].
  split; [apply universalTrace_sorted |].
  split; [intros v; apply In_universal_limit |].
  split; [intros v; apply In_universal_offset |].
  split; [intros o; apply In_universal_orderBy |].
  split; [apply In_universal_first |].
  split; [intros g; apply In_universal_groupBy |].
  split; [intros w; apply In_universal_where |].
  split; [intros g; apply In_universal_search |].
  intros j; apply In_universal_joins.
Qed.

(** *** Paging *)

Lemma universalTrace_no_limit qb c :
  truthy (st_limit (state qb)) = false ->
  In c (universalTrace qb) -> isLimit c = false.
Proof.
  intros Hfalsy Hin.
  destruct c; try reflexivity.
  apply In_universal_limit in Hin. destruct Hin as [-> Htruthy].
  congruence.
Qed.

Lemma universalTrace_no_offset qb c :
  truthy (st_offset (state qb)) = false ->
  In c (universalTrace qb) -> isOffset c = false.
Proof.
  intros Hfalsy Hin.
  destruct c; try reflexivity.
  apply In_universal_offset in Hin. destruct Hin as [-> Htruthy].
  congruence.
Qed.

(** Where the limit and offset calls of a compiled query are: among the
    universal clauses of the query that was compiled directly. *)
Lemma paging_calls fuel qb qb1 :
  processState (compiledBuilder qb) = Ret tt qb1 ->
  st_type (state qb1) <> None ->
  exists q qb2,
    getKnexQuery meta dialect (3 + fuel) qb = Ret q qb2 /\
    st_limit (state qb2) = st_limit (state qb1) /\
    st_offset (state qb2) = st_offset (state qb1) /\
    forall c, isLimit c = true \/ isOffset c = true ->
              (In c (allCalls q) <-> In c (universalTrace qb2)).
Proof.
  intros Hproc Hk.
  destruct (compile_returns fuel qb Hproc Hk)
    as (inner & qb2 & op & Hsame & Hinner & Hop & Hget).
  destruct Hsame as (Htype & _ & _ & _ & _ & _ & _ & Hl & Ho & _).
  assert (Hdirect : forall c, isLimit c = true \/ isOffset c = true ->
                              (In c (op ++ universalTrace qb2) <->
                               In c (universalTrace qb2))).
  { intros c Hc. rewrite in_app_iff. split; [| auto].
    intros [Hin | Hin]; [| exact Hin].
    apply Hop in Hin. destruct Hin as [Hin _].
    destruct c; simpl in Hin; try discriminate Hin;
      destruct Hc as [Hc | Hc]; discriminate Hc. }
  destruct (shouldUseSubQuery (defaultKind qb)).
  - destruct Hget as (k & Hk2 & Hget).
    eexists; exists qb2. split; [exact Hget |].
    split; [exact Hl | split; [exact Ho |]].
    intros c Hc. rewrite <- (Hdirect c Hc).
    simpl. rewrite Hinner, !app_nil_r.
    split.
    + assert (Hnone : match callNoArgs k with
                      | KWhereIn _ sub => allCalls sub
                      | _ => []
                      end = []) by now destruct k.
      rewrite Hnone. simpl.
      intros [H | [H | [H | H]]]; try exact H; subst c;
        destruct Hc as [Hc | Hc]; try discriminate Hc;
          destruct k; discriminate Hc.
    + assert (Hnone : match callNoArgs k with
                      | KWhereIn _ sub => allCalls sub
                      | _ => []
                      end = []) by now destruct k.
      rewrite Hnone. simpl. auto.
  - exists inner, qb2. split; [exact Hget |].
    split; [exact Hl | split; [exact Ho |]].
    intros c Hc. rewrite Hinner. now apply Hdirect.
Qed.

(** C10.  A limit or an offset is applied to the compiled query only when
    it is truthy: with [limit(0)], [offset(0)] or a null value the query has
    no limit (offset) call at all, in any of its sub-queries either, so that
    [limit(0)] compiles as a limit that was never set does. *)
Theorem falsy_paging_is_not_applied fuel qb qb1 :
  processState (compiledBuilder qb) = Ret tt qb1 ->
  st_type (state qb1) <> None ->
  st_limit (state qb1) = st_limit (state qb) ->
  st_offset (state qb1) = st_offset (state qb) ->
  exists q qb2,
    getKnexQuery meta dialect (3 + fuel) qb = Ret q qb2 /\
    (forall v, In (KLimit v) (allCalls q) <->
               v = st_limit (state qb) /\ truthy v = true) /\
    (forall v, In (KOffset v) (allCalls q) <->
               v = st_offset (state qb) /\ truthy v = true) /\
    (st_limit (state qb) = VNum 0 \/ st_limit (state qb) = VNull ->
     forall c, In c (allCalls q) -> isLimit c = false) /\
    (st_offset (state qb) = VNum 0 \/ st_offset (state qb) = VNull ->
     forall c, In c (allCalls q) -> isOffset c = false) /\
    (forall q0 b, universalClauses q0 (limit (VNum 0) b) =
                  universalClauses q0 (limit VNull b)) /\
    (forall q0 b, universalClauses q0 (offset (VNum 0) b) =
                  universalClauses q0 (offset VNull b)).
Proof.
  intros Hproc Hk Hlimit Hoffset.
  destruct (paging_calls fuel qb Hproc Hk) as (q & qb2 & Hget & Hl & Ho & Hin).
  rewrite Hlimit in Hl. rewrite Hoffset in Ho.
  exists q, qb2.
  split; [exact Hget |].
  split; [| split; [| split; [| split; [| split]]]].
  - intros v. rewrite Hin by (left; reflexivity).
    rewrite In_universal_limit, Hl. reflexivity.
  - intros v. rewrite Hin by (right; reflexivity).
    rewrite In_universal_offset, Ho. reflexivity.
  - intros Hzero c Hc.
    destruct (isLimit c) eqn:Hlim; [| reflexivity].
    apply Hin in Hc; [| now left].
    rewrite <- Hlim. apply universalTrace_no_limit with (qb := qb2); [| exact Hc].
    rewrite Hl. destruct Hzero as [-> | ->]; reflexivity.
  - intros Hzero c Hc.
    destruct (isOffset c) eqn:Hoff; [| reflexivity].
    apply Hin in Hc; [| now right].
    rewrite <- Hoff. apply universalTrace_no_offset with (qb := qb2); [| exact Hc].
    rewrite Ho. destruct Hzero as [-> | ->]; reflexivity.
  - reflexivity.
  - reflexivity.
Qed.

(** *** The operation clause *)

Lemma verbs_app l l' : verbs (l ++ l') = verbs l ++ verbs l'.
Proof.
  induction l as [| c l IH]; simpl; [reflexivity |].
  destruct (verb c); simpl; now rewrite IH.
Qed.

Lemma verbs_none l : (forall c, In c l -> verb c = None) -> verbs l = [].
Proof.
  induction l as [| c l IH]; intros H; simpl; [reflexivity |].
  rewrite (H c (or_introl eq_refl)).
  apply IH. intros d Hd. apply H. now right.
Qed.

Lemma ranked_no_verb c : clauseRank c <> None -> verb c = None.
Proof.
  destruct c; simpl; intros H; try reflexivity; now elim H.
Qed.

Lemma verbs_universalTrace qb : verbs (universalTrace qb) = [].
Proof.
  apply verbs_none. intros c Hc.
  now apply ranked_no_verb, universalTrace_ranked with (qb := qb).
Qed.

Lemma verbs_universalClauses q qb :
  verbs (calls_of (universalClauses q qb)) = verbs (calls_of q).
Proof.
  rewrite calls_of_universalClauses, verbs_app, verbs_universalTrace.
  apply app_nil_r.
Qed.

(** Every kind but [Truncate] adds its own operation method, once. *)
Lemma operationClause_verbs q qb q' qb' k :
  st_type (state qb) = Some k -> k <> Truncate ->
  operationClause meta dialect q qb = Ret q' qb' ->
  verbs (calls_of q') = verbs (calls_of q) ++ [k].
Proof.
  intros Hk Hnot. unfold operationClause. rewrite Hk.
  destruct k; try (now elim Hnot);
    repeat match goal with
           | |- context [if ?b then _ else _] => destruct b
           end;
    intros H; injection H as <- <-;
    rewrite ?calls_of_call, ?verbs_app; simpl;
    rewrite <- ?app_assoc; reflexivity.
Qed.

(** The select case, in closed form. *)
Lemma operationClause_select q qb :
  st_type (state qb) = Some Select ->
  operationClause meta dialect q qb =
  let cols := selectedOrStar (st_select (state qb)) in
  if (0 <? length (st_joins (state qb))) &&
     (length (st_groupBy (state qb)) =? 0)
  then
    let cols' := map column (st_orderBy (state qb)) ++ cols in
    Ret (call (KSelect (map (fun c => aliasColumn c None qb) cols'))
              (call (KDistinct (VStr (alias qb ++ ".id"))) q))
        (onState (set_select cols') qb)
  else
    Ret (call (KSelect (map (fun c => aliasColumn c None qb) cols)) q)
        (onState (set_select cols) qb).
Proof.
  intros Hk. unfold operationClause. rewrite Hk.
  destruct qb as [a n [t sel cnt fst dat whr jns pop lim off ord grp srch] d].
  simpl in Hk. subst t.
  destruct sel; destruct jns; destruct grp; reflexivity.
Qed.

(** C3.  Compiling a select whose joins, once the processors have run, are
    not empty: with an empty group-by the query starts with a DISTINCT on
    the aliased [id] column and selects the order-by columns followed by
    the column list; with a group-by it has no DISTINCT and selects the
    column list alone. *)
Theorem select_distinct_on_joins fuel qb qb1 :
  st_type (state qb) = Some Select ->
  processState qb = Ret tt qb1 ->
  st_type (state qb1) = Some Select ->
  st_joins (state qb1) <> [] ->
  exists q qb2,
    getKnexQuery meta dialect (S fuel) qb = Ret q qb2 /\
    (st_groupBy (state qb1) = [] ->
     exists rest,
       calls_of q =
       KDistinct (VStr (alias qb1 ++ ".id"))
         :: KSelect (map (fun c => aliasColumn c None qb1)
                         (map column (st_orderBy (state qb1)) ++
                          selectedOrStar (st_select (state qb1))))
         :: rest /\
       (forall c, In c rest -> isDistinct c = false /\ verb c = None) /\
       st_select (state qb2) =
       map column (st_orderBy (state qb1)) ++
       selectedOrStar (st_select (state qb1))) /\
    (st_groupBy (state qb1) <> [] ->
     exists rest,
       calls_of q =
       KSelect (map (fun c => aliasColumn c None qb1)
                    (selectedOrStar (st_select (state qb1))))
         :: rest /\
       (forall c, In c (calls_of q) -> isDistinct c = false) /\
       (forall c, In c rest -> verb c = None) /\
       st_select (state qb2) = selectedOrStar (st_select (state qb1))).
Proof.
  intros Hk Hproc Hk1 Hjoins.
  assert (Hdef : defaultKind qb = qb) by now apply defaultKind_of_kind with Select.
  assert (Hsub : shouldUseSubQuery (defaultKind qb) = false).
  { rewrite Hdef. unfold shouldUseSubQuery. now rewrite Hk. }
  rewrite <- Hdef in Hproc.
  destruct (getKnexQuery_direct_returns fuel qb Hsub Hproc)
    as (q1 & qb2 & Hop & Hget).
  exists (universalClauses q1 qb2), qb2.
  split; [exact Hget |].
  rewrite (operationClause_select _ _ Hk1) in Hop. cbv zeta in Hop.
  apply nonempty_length in Hjoins. rewrite Hjoins in Hop. simpl in Hop.
  assert (Hrest : forall c, In c (universalTrace qb2) ->
                            isDistinct c = false /\ verb c = None).
  { intros c Hc. apply universalTrace_ranked in Hc.
    split; [| now apply ranked_no_verb].
    destruct c; try reflexivity. now elim Hc. }
  split.
  - intros Hgroup. rewrite Hgroup in Hop. simpl in Hop.
    injection Hop as <- <-.
    exists (universalTrace
              (onState (set_select
                          (map column (st_orderBy (state qb1)) ++
                           selectedOrStar (st_select (state qb1)))) qb1)).
    split; [| split; [exact Hrest | reflexivity]].
    rewrite calls_of_universalClauses, ?calls_of_call. reflexivity.
  - intros Hgroup.
    destruct (st_groupBy (state qb1)) as [| g grp] eqn:Hg;
      [now elim Hgroup |].
    simpl in Hop. injection Hop as <- <-.
    exists (universalTrace
              (onState (set_select (selectedOrStar (st_select (state qb1))))
                       qb1)).
    rewrite calls_of_universalClauses, ?calls_of_call. simpl.
    split; [reflexivity |].
    split; [| split; [intros c Hc; now apply Hrest | reflexivity]].
    intros c [<- | Hc]; [reflexivity | now apply Hrest].
Qed.

(** *** Insert *)

Lemma has_declares key attrs :
  has key attrs = true <-> exists d, In (key, d) attrs.
Proof.
  unfold has. rewrite existsb_exists. split.
  - intros ([k d] & Hin & Heq). simpl in Heq.
    apply String.eqb_eq in Heq. subst k. now exists d.
  - intros (d & Hin). exists (key, d). split; [exact Hin |].
    simpl. apply String.eqb_refl.
Qed.

(** C7.  Compiling an insert: the query asks for the generated id back, by
    a [returning('id')] call, exactly when the dialect uses RETURNING and
    the entity declares an [id] attribute; otherwise it has no returning
    call at all. *)
Theorem insert_returns_id fuel qb qb1 :
  st_type (state qb) = Some Insert ->
  processState qb = Ret tt qb1 ->
  st_type (state qb1) = Some Insert ->
  exists q qb2,
    getKnexQuery meta dialect (S fuel) qb = Ret q qb2 /\
    (exists rest, calls_of q = KInsert (st_data (state qb1)) :: rest /\
                  forall c, In c rest -> verb c = None) /\
    (In (KReturning "id") (calls_of q) <->
     useReturning dialect = true /\
     exists d, In ("id", d) (attributes meta)) /\
    (forall c, In c (calls_of q) -> isReturning c = true ->
               c = KReturning "id").
Proof.
  intros Hk Hproc Hk1.
  assert (Hdef : defaultKind qb = qb) by now apply defaultKind_of_kind with Insert.
  assert (Hsub : shouldUseSubQuery (defaultKind qb) = false).
  { rewrite Hdef. unfold shouldUseSubQuery. now rewrite Hk. }
  rewrite <- Hdef in Hproc.
  destruct (getKnexQuery_direct_returns fuel qb Hsub Hproc)
    as (q1 & qb2 & Hop & Hget).
  exists (universalClauses q1 qb2), qb2.
  split; [exact Hget |].
  rewrite calls_of_universalClauses.
  assert (Huni : forall c, In c (universalTrace qb2) ->
                           isReturning c = false /\ verb c = None).
  { intros c Hc. apply universalTrace_ranked in Hc.
    split; [| now apply ranked_no_verb].
    destruct c; try reflexivity. now elim Hc. }
  unfold operationClause in Hop. rewrite Hk1 in Hop.
  rewrite <- has_declares.
  destruct (useReturning dialect); destruct (has "id" (attributes meta));
    simpl in Hop; injection Hop as <- <-; simpl.
  - split; [| split].
    + eexists. split; [reflexivity |].
      intros c [<- | Hc]; [reflexivity | now apply Huni].
    + split; auto.
    + intros c [<- | [<- | Hc]] Hret; try discriminate Hret;
        [reflexivity |].
      apply Huni in Hc. destruct Hc as [Hc _]. congruence.
  - split; [| split].
    + eexists. split; [reflexivity |]. intros c Hc. now apply Huni.
    + split; [| intros [_ H]; discriminate H].
      intros [H | H]; [discriminate H |].
      apply Huni in H. destruct H as [H _]. discriminate H.
    + intros c [<- | Hc] Hret; [discriminate Hret |].
      apply Huni in Hc. destruct Hc as [Hc _]. congruence.
  - split; [| split].
    + eexists. split; [reflexivity |]. intros c Hc. now apply Huni.
    + split; [| intros [H _]; discriminate H].
      intros [H | H]; [discriminate H |].
      apply Huni in H. destruct H as [H _]. discriminate H.
    + intros c [<- | Hc] Hret; [discriminate Hret |].
      apply Huni in Hc. destruct Hc as [Hc _]. congruence.
  - split; [| split].
    + eexists. split; [reflexivity |]. intros c Hc. now apply Huni.
    + split; [| intros [H _]; discriminate H].
      intros [H | H]; [discriminate H |].
      apply Huni in H. destruct H as [H _]. discriminate H.
    + intros c [<- | Hc] Hret; [discriminate Hret |].
      apply Huni in Hc. destruct Hc as [Hc _]. congruence.
Qed.

(** *** The column list *)

Lemma select_columns args qb :
  st_select (state (select args qb)) = firstSeen (castArray args).
Proof. simpl. apply uniq_firstSeen. Qed.

Lemma addSelect_columns args qb :
  Deduplicated (st_select (state qb)) ->
  st_select (state (addSelect args qb)) =
  st_select (state qb) ++
  firstSeen (filter (fun c => negb (includes (st_select (state qb)) c))
                    (castArray args)).
Proof.
  intros H. simpl. rewrite uniq_app.
  rewrite uniq_firstSeen, (firstSeen_Deduplicated H). reflexivity.
Qed.

Lemma runSelectCalls_columns calls qb cols :
  st_select (state qb) = uniq cols ->
  st_select (state (runSelectCalls calls qb)) =
  uniq (requestedColumns cols calls).
Proof.
  revert qb cols. induction calls as [| c calls IH]; intros qb cols H.
  - exact H.
  - destruct c as [args | args]; simpl; apply IH; simpl.
    + reflexivity.
    + rewrite H. apply uniq_app_uniq.
Qed.

(** C5.  [select] replaces the column list by the first occurrences of its
    argument; [addSelect] appends to the list the first occurrences of the
    columns that are not in it yet; so after any sequence of the two the list
    holds the first occurrences of the columns asked for since the last
    [select], each once and in the order first seen.  A select compilation
    puts ['*'] in place of the list exactly when the list is empty (after
    the order-by columns, when a DISTINCT is forced). *)
Theorem select_columns_deduplicated :
  (forall args qb,
      st_select (state (select args qb)) = firstSeen (castArray args)) /\
  (forall args qb,
      Deduplicated (st_select (state qb)) ->
      st_select (state (addSelect args qb)) =
      st_select (state qb) ++
      firstSeen (filter (fun c => negb (includes (st_select (state qb)) c))
                        (castArray args))) /\
  (forall calls,
      st_select (state (runSelectCalls calls createQueryBuilder)) =
      firstSeen (requestedColumns [] calls) /\
      Deduplicated
        (st_select (state (runSelectCalls calls createQueryBuilder)))) /\
  (forall fuel qb qb1,
      st_type (state qb) = Some Select ->
      processState qb = Ret tt qb1 ->
      st_type (state qb1) = Some Select ->
      exists q qb2 prefix,
        getKnexQuery meta dialect (S fuel) qb = Ret q qb2 /\
        (st_joins (state qb1) = [] \/ st_groupBy (state qb1) <> [] ->
         prefix = []) /\
        (st_joins (state qb1) <> [] /\ st_groupBy (state qb1) = [] ->
         prefix = map column (st_orderBy (state qb1))) /\
        (st_select (state qb1) = [] ->
         st_select (state qb2) = prefix ++ [VStr "*"]) /\
        (st_select (state qb1) <> [] ->
         st_select (state qb2) = prefix ++ st_select (state qb1)) /\
        In (KSelect (map (fun c => aliasColumn c None qb1)
                         (st_select (state qb2))))
           (calls_of q)).
Proof.
  split; [exact select_columns |].
  split; [exact addSelect_columns |].
  split.
  - intros calls.
    rewrite (@runSelectCalls_columns calls createQueryBuilder [] eq_refl).
    rewrite uniq_firstSeen.
    split; [reflexivity | apply Deduplicated_firstSeen].
  - intros fuel qb qb1 Hk Hproc Hk1.
    assert (Hdef : defaultKind qb = qb)
      by now apply defaultKind_of_kind with Select.
    assert (Hsub : shouldUseSubQuery (defaultKind qb) = false).
    { rewrite Hdef. unfold shouldUseSubQuery. now rewrite Hk. }
    rewrite <- Hdef in Hproc.
    destruct (getKnexQuery_direct_returns fuel qb Hsub Hproc)
      as (q1 & qb2 & Hop & Hget).
    rewrite (operationClause_select _ _ Hk1) in Hop. cbv zeta in Hop.
    assert (Hstar : (st_select (state qb1) = [] ->
                     selectedOrStar (st_select (state qb1)) = [VStr "*"]) /\
                    (st_select (state qb1) <> [] ->
                     selectedOrStar (st_select (state qb1)) =
                     st_select (state qb1))).
    { destruct (st_select (state qb1)); split; intros H;
        try reflexivity; try discriminate H; now elim H. }
    destruct Hstar as [Hempty Hfull].
    destruct (st_joins (state qb1)) as [| j jns] eqn:Hj;
      [| destruct (st_groupBy (state qb1)) as [| g grp] eqn:Hg];
      simpl in Hop; injection Hop as <- <-;
        eexists; eexists.
    + exists []. split; [exact Hget |].
      split; [reflexivity |].
      split; [intros [H _]; now elim H |].
      split; [exact Hempty |].
      split; [exact Hfull |].
      rewrite calls_of_universalClauses. simpl. left. reflexivity.
    + exists (map column (st_orderBy (state qb1))).
      split; [exact Hget |].
      split; [intros [H | H]; [discriminate H | now elim H] |].
      split; [reflexivity |].
      split; [intros H; simpl; now rewrite (Hempty H) |].
      split; [intros H; simpl; now rewrite (Hfull H) |].
      rewrite calls_of_universalClauses. simpl. right. left. reflexivity.
    + exists []. split; [exact Hget |].
      split; [reflexivity |].
      split; [intros [_ H]; discriminate H |].
      split; [exact Hempty |].
      split; [exact Hfull |].
      rewrite calls_of_universalClauses. simpl. left. reflexivity.
Qed.

(** *** The operation kind *)

Lemma last_default {A : Type} (l : list A) (a d d' : A) :
  last (a :: l) d = last (a :: l) d'.
Proof.
  revert a. induction l as [| b l IH]; intros a; [reflexivity |].
  change (last (b :: l) d = last (b :: l) d'). apply IH.
Qed.

Lemma last_cons {A : Type} (l : list A) (a d : A) :
  last (a :: l) d = last l a.
Proof.
  destruct l as [| b l]; [reflexivity |].
  change (last (b :: l) d = last (b :: l) a). apply last_default.
Qed.

Lemma runKindCalls_state calls qb k :
  st_type (state qb) = Some k ->
  st_type (state (runKindCalls calls qb)) =
  Some (last (map kindOfCall calls) k) /\
  st_joins (state (runKindCalls calls qb)) = st_joins (state qb).
Proof.
  revert qb k. induction calls as [| c calls IH]; intros qb k Hk.
  - split; [exact Hk | reflexivity].
  - change (runKindCalls (c :: calls) qb)
      with (runKindCalls calls (runKindCall qb c)).
    change (map kindOfCall (c :: calls))
      with (kindOfCall c :: map kindOfCall calls).
    rewrite last_cons.
    destruct (IH (runKindCall qb c) (kindOfCall c)) as [Htype Hjoins].
    + destruct c; reflexivity.
    + split; [exact Htype |].
      rewrite Hjoins. destruct c; reflexivity.
Qed.

Lemma lastKind_not_truncate calls : lastKind calls <> Truncate.
Proof.
  unfold lastKind.
  assert (H : forall k, k <> Truncate ->
                        last (map kindOfCall calls) k <> Truncate).
  { induction calls as [| c calls IH]; intros k Hk; [exact Hk |].
    change (map kindOfCall (c :: calls))
      with (kindOfCall c :: map kindOfCall calls).
    rewrite last_cons. apply IH. destruct c; discriminate. }
  apply H. discriminate.
Qed.

(** C4.  After any sequence of [select], [insert], [update], [delete] and
    [count] calls the kind is the one of the last call ([Select] when there
    is none), and the compiled query holds exactly one operation method, the
    one of that kind.  The builder the calls are made on is a new one, or any
    other of kind [Select] that has no join or is not left with the kind
    [Delete] or [Update], the two that joins send through [runSubQuery]. *)
Theorem last_kind_call_wins fuel qb0 calls qb1 :
  st_type (state qb0) = Some Select ->
  st_joins (state qb0) = [] \/
  (lastKind calls <> Delete /\ lastKind calls <> Update) ->
  processState (runKindCalls calls qb0) = Ret tt qb1 ->
  st_type (state qb1) = st_type (state (runKindCalls calls qb0)) ->
  st_type (state (runKindCalls calls qb0)) = Some (lastKind calls) /\
  exists q qb2,
    getKnexQuery meta dialect (S fuel) (runKindCalls calls qb0) = Ret q qb2 /\
    verbs (calls_of q) = [lastKind calls] /\
    st_type (state qb2) = Some (lastKind calls).
Proof.
  intros Hk0 Hj0 Hproc Hframe.
  destruct (runKindCalls_state calls qb0 Hk0) as [Hk Hj].
  fold (lastKind calls) in Hk.
  split; [exact Hk |].
  set (qb := runKindCalls calls qb0) in *.
  assert (Hdef : defaultKind qb = qb)
    by now apply defaultKind_of_kind with (lastKind calls).
  assert (Hsub : shouldUseSubQuery (defaultKind qb) = false).
  { rewrite Hdef. unfold shouldUseSubQuery. rewrite Hk, Hj.
    destruct Hj0 as [-> | [Hdel Hupd]].
    - now destruct (lastKind calls).
    - destruct (lastKind calls); try reflexivity;
        [now elim Hupd | now elim Hdel]. }
  rewrite <- Hdef in Hproc.
  destruct (getKnexQuery_direct_returns fuel qb Hsub Hproc)
    as (q1 & qb2 & Hop & Hget).
  exists (universalClauses q1 qb2), qb2.
  split; [exact Hget |].
  rewrite Hk in Hframe.
  split.
  - rewrite verbs_universalClauses.
    rewrite (operationClause_verbs _ _ Hframe (lastKind_not_truncate calls) Hop).
    reflexivity.
  - destruct (operationClause_shape _ _ Hop) as (_ & _ & Hsame & _).
    destruct Hsame as (Htype & _). now rewrite Htype.
Qed.

End Compilation.

(** ** The properties at the sample builders *)

Lemma select_distinct_on_joins_witness :
  @processState plainHelpers selectWithJoin = Ret tt selectWithJoin /\
  st_joins (state selectWithJoin) = [rolesJoin] /\
  st_groupBy (state selectWithJoin) = [] /\
  exists q qb2 rest,
    @getKnexQuery plainHelpers usersMeta plainDialect 1 selectWithJoin =
    Ret q qb2 /\
    calls_of q =
    KDistinct (VStr "t0.id") :: KSelect [VStr "t0.age"; VStr "t0.name"] :: rest /\
    st_select (state qb2) = [VStr "age"; VStr "name"].
Proof.
  split; [reflexivity | split; [reflexivity | split; [reflexivity |]]].
  destruct (@select_distinct_on_joins plainHelpers usersMeta plainDialect 0
              selectWithJoin selectWithJoin)
    as (q & qb2 & Hget & Hdistinct & _).
  - reflexivity.
  - reflexivity.
  - reflexivity.
  - discriminate.
  - destruct (Hdistinct eq_refl) as (rest & Hcalls & _ & Hselect).
    exists q, qb2, rest.
    split; [exact Hget | split; [exact Hcalls | exact Hselect]].
Defined.

Lemma last_kind_call_wins_witness :
  exists q qb2,
    @getKnexQuery plainHelpers usersMeta plainDialect 1
      (count VUndefined
             (delete (insert (VObject [("name", VStr "a")]) createQueryBuilder))) =
    Ret q qb2 /\
    verbs (calls_of q) = [Count] /\
    st_type (state qb2) = Some Count.
Proof.
  destruct (@last_kind_call_wins plainHelpers usersMeta plainDialect 0
              createQueryBuilder
              [CallInsert (VObject [("name", VStr "a")]); CallDelete;
               CallCount VUndefined]
              (count VUndefined
                     (delete (insert (VObject [("name", VStr "a")])
                                     createQueryBuilder))))
    as (_ & q & qb2 & Hget & Hverbs & Htype).
  - reflexivity.
  - left. reflexivity.
  - reflexivity.
  - reflexivity.
  - exists q, qb2. split; [exact Hget | split; [exact Hverbs | exact Htype]].
Defined.

Lemma select_columns_deduplicated_witness :
  st_select
    (state (addSelect (VArray [VStr "age"; VStr "id"])
                      (select (VArray [VStr "name"; VStr "age"; VStr "name"])
                              createQueryBuilder))) =
  [VStr "name"; VStr "age"; VStr "id"] /\
  exists q qb2,
    @getKnexQuery plainHelpers usersMeta plainDialect 1 createQueryBuilder =
    Ret q qb2 /\
    st_select (state qb2) = [VStr "*"].
Proof.
  destruct (@select_columns_deduplicated plainHelpers usersMeta plainDialect)
    as (_ & _ & Hcalls & Hcompile).
  split.
  - exact (proj1 (Hcalls [Selecting (VArray [VStr "name"; VStr "age"; VStr "name"]);
                          AddingSelect (VArray [VStr "age"; VStr "id"])])).
  - destruct (Hcompile 0 createQueryBuilder createQueryBuilder
                       eq_refl eq_refl eq_refl)
      as (q & qb2 & prefix & Hget & Hnone & _ & Hstar & _).
    exists q, qb2. split; [exact Hget |].
    rewrite (Hstar eq_refl), (Hnone (or_introl eq_refl)). reflexivity.
Defined.

Lemma insert_returns_id_witness :
  (exists q qb2,
      @getKnexQuery plainHelpers usersMeta returningDialect 1
        (insert (VObject [("name", VStr "a")]) createQueryBuilder) = Ret q qb2 /\
      In (KReturning "id") (calls_of q)) /\
  (exists q qb2,
      @getKnexQuery plainHelpers usersMeta plainDialect 1
        (insert (VObject [("name", VStr "a")]) createQueryBuilder) = Ret q qb2 /\
      ~ In (KReturning "id") (calls_of q)).
Proof.
  split.
  - destruct (@insert_returns_id plainHelpers usersMeta returningDialect 0
                (insert (VObject [("name", VStr "a")]) createQueryBuilder)
                (insert (VObject [("name", VStr "a")]) createQueryBuilder)
                eq_refl eq_refl eq_refl)
      as (q & qb2 & Hget & _ & Hiff & _).
    exists q, qb2. split; [exact Hget |].
    apply Hiff. split; [reflexivity |].
    exists (VStr "increments"). left. reflexivity.
  - destruct (@insert_returns_id plainHelpers usersMeta plainDialect 0
                (insert (VObject [("name", VStr "a")]) createQueryBuilder)
                (insert (VObject [("name", VStr "a")]) createQueryBuilder)
                eq_refl eq_refl eq_refl)
      as (q & qb2 & Hget & _ & Hiff & _).
    exists q, qb2. split; [exact Hget |].
    intros Hin. apply Hiff in Hin. destruct Hin as [Hreturning _].
    discriminate Hreturning.
Defined.

Lemma universal_clauses_in_order_witness :
  exists q qb2,
    @getKnexQuery plainHelpers usersMeta plainDialect 1
      (search (VStr "smith") adultNames) = Ret q qb2 /\
    exists op uni,
      calls_of q = op ++ uni /\
      StronglySorted before uni /\
      In (KLimit (VNum 10)) uni /\
      In (KOrderBy byAgeDesc) uni /\
      In (KApplyWhere [adultsFilter]) uni /\
      In (KWhere (ApplySearch (VStr "smith") "t0")) uni.
Proof.
  destruct (@universal_clauses_in_order plainHelpers usersMeta plainDialect 0
              (search (VStr "smith") adultNames)
              (search (VStr "smith") adultNames) eq_refl eq_refl)
    as (q & qb2 & op & uni & Hget & Hsame & Hcalls & _ & _ & Hsorted
        & Hlimit & _ & Horder & _ & _ & Hwhere & Hsearch & _).
  destruct Hsame as (_ & Hw & _ & _ & _ & _ & _ & Hl & _ & Ho & _ & Hs).
  assert (Halias : alias qb2 = "t0").
  { change (@getKnexQuery plainHelpers usersMeta plainDialect 1
              (search (VStr "smith") adultNames))
      with (Ret (universalClauses
                   (Query (FromTable (Aliased "t0" "users"))
                          [KSelect [VStr "t0.name"]])
                   (search (VStr "smith") adultNames))
                (search (VStr "smith") adultNames)) in Hget.
    injection Hget as _ <-. reflexivity. }
  exists q, qb2. split; [exact Hget |].
  exists op, uni.
  split; [exact Hcalls |].
  split; [exact Hsorted |].
  split; [apply Hlimit; rewrite Hl; split; reflexivity |].
  split; [apply Horder; rewrite Ho; split; [reflexivity | discriminate] |].
  split; [apply Hwhere; rewrite Hw; reflexivity |].
  apply Hsearch. rewrite Hs, Halias. split; reflexivity.
Defined.

Lemma falsy_paging_is_not_applied_witness :
  (exists q qb2,
      @getKnexQuery plainHelpers usersMeta plainDialect 3
        (offset VNull (limit (VNum 0) adultNames)) = Ret q qb2 /\
      forall c, In c (allCalls q) -> isLimit c = false /\ isOffset c = false) /\
  (exists q qb2,
      @getKnexQuery plainHelpers usersMeta plainDialect 3
        (offset (VNum 20) (limit (VNum 0) deleteWithJoin)) = Ret q qb2 /\
      In (KOffset (VNum 20)) (allCalls q) /\
      forall c, In c (allCalls q) -> isLimit c = false).
Proof.
  split.
  - destruct (@falsy_paging_is_not_applied plainHelpers usersMeta plainDialect 0
                (offset VNull (limit (VNum 0) adultNames))
                (offset VNull (limit (VNum 0) adultNames)) eq_refl)
      as (q & qb2 & Hget & _ & _ & Hlimit & Hoffset & _);
      [discriminate | reflexivity | reflexivity |].
    exists q, qb2. split; [exact Hget |].
    intros c Hc. split.
    + apply Hlimit; [left; reflexivity | exact Hc].
    + apply Hoffset; [right; reflexivity | exact Hc].
  - destruct (@falsy_paging_is_not_applied plainHelpers usersMeta plainDialect 0
                (offset (VNum 20) (limit (VNum 0) deleteWithJoin))
                (select (VStr "id")
                        (offset (VNum 20) (limit (VNum 0) deleteWithJoin)))
                eq_refl)
      as (q & qb2 & Hget & _ & Hoffset & Hlimit & _);
      [discriminate | reflexivity | reflexivity |].
    exists q, qb2. split; [exact Hget |].
    split.
    + apply Hoffset. split; reflexivity.
    + apply Hlimit. left. reflexivity.
Defined.

(** ** Where the compiled query departs from the documented form *)

(** C1.  A delete (or an update) with a join and a filter compiles to two
    queries, an inner select of [id] that keeps the join and the filter and an
    outer query over the base table alone, without join and filtered only by
    [id IN] the inner select; but the outer query is a select, not the delete
    (update) that was asked for: [runSubQuery] reads [state.type] after
    [this.select('id')] has overwritten it. *)
Theorem subquery_outer_query_is_a_select :
  @compile plainHelpers usersMeta plainDialect deleteWithJoin =
  Ret (Query (FromTable (Table "users"))
             [KSelect [];
              KWhereIn "id"
                (Query (FromSubquery
                          (Query (FromTable (Aliased "t0" "users"))
                                 [KDistinct (VStr "t0.id");
                                  KSelect [VStr "t0.id"];
                                  KApplyWhere [adultsFilter];
                                  KApplyJoins [rolesJoin]])
                          "subQuery")
                       [KSelect [VStr "id"]])])
      (select (VStr "id") deleteWithJoin) /\
  st_type (state deleteWithJoin) = Some Delete /\
  @compile plainHelpers usersMeta plainDialect updateWithJoin =
  Ret (Query (FromTable (Table "users"))
             [KSelect [];
              KWhereIn "id"
                (Query (FromSubquery
                          (Query (FromTable (Aliased "t0" "users"))
                                 [KDistinct (VStr "t0.id");
                                  KSelect [VStr "t0.id"];
                                  KApplyWhere [];
                                  KApplyJoins [rolesJoin]])
                          "subQuery")
                       [KSelect [VStr "id"]])])
      (select (VStr "id") updateWithJoin) /\
  st_type (state updateWithJoin) = Some Update.
Proof.
  repeat split.
Qed.


(** * Further properties of the builder *)

(** ** The alias allocator *)

Lemma to_uint_nonnil n : Nat.to_uint n <> Decimal.Nil.
Proof.
  rewrite <- (DecimalNat.Unsigned.of_to n) at 1.
  rewrite DecimalNat.Unsigned.to_of.
  apply DecimalFacts.unorm_nonnil.
Qed.

(** Two counters never print as the same alias. *)
Lemma aliasName_inj n m : aliasName n = aliasName m -> n = m.
Proof.
  unfold aliasName. simpl. intros H. injection H as H.
  apply (f_equal NilZero.uint_of_string) in H.
  rewrite !NilZero.usu in H by apply to_uint_nonnil.
  injection H as H.
  now apply DecimalNat.Unsigned.to_uint_inj.
Qed.

Lemma runMethod_wellformed c qb :
  malformed c = false ->
  exists issued qb',
    runMethod c qb = Ret issued qb' /\
    alias qb' = alias qb /\
    issued = map aliasName (seq (counter qb) (aliasRequests [c])) /\
    counter qb' = counter qb + aliasRequests [c].
Proof.
  intros Hok.
  destruct c; simpl in Hok;
    try (eexists; eexists; split; [reflexivity |];
         simpl; rewrite ?Nat.add_0_r, ?Nat.add_1_r; auto; fail).
  - destruct w; try discriminate Hok;
      (eexists; eexists; split; [reflexivity |];
       simpl; rewrite ?Nat.add_0_r; auto).
  - destruct (keysOf arg) as [params |] eqn:Hkeys; [| discriminate Hok].
    unfold runMethod, init, bind. rewrite Hkeys.
    destruct (isNil (p_where params)) eqn:Hnil; simpl in *.
    + eexists; eexists; split; [reflexivity |].
      simpl. rewrite Nat.add_0_r.
      unfold unlessNil.
      repeat match goal with
             | |- context [if ?b then _ else _] => destruct b
             | |- context [match ?o with Some _ => _ | None => _ end] =>
                 destruct o
             end; auto.
    + apply negb_false_iff in Hok.
      destruct (p_where params); try discriminate Hok; try discriminate Hnil.
      eexists; eexists; split; [reflexivity |].
      simpl. rewrite Nat.add_0_r.
      unfold unlessNil.
      repeat match goal with
             | |- context [if ?b then _ else _] => destruct b
             | |- context [match ?o with Some _ => _ | None => _ end] =>
                 destruct o
             end; auto.
Qed.

Lemma runMethods_wellformed cs qb :
  Forall (fun c => malformed c = false) cs ->
  exists issued qb',
    runMethods cs qb = Ret issued qb' /\
    alias qb' = alias qb /\
    issued = map aliasName (seq (counter qb) (aliasRequests cs)) /\
    counter qb' = counter qb + aliasRequests cs.
Proof.
  revert qb. induction cs as [| c cs IH]; intros qb Hok.
  - exists [], qb. repeat split. unfold aliasRequests. simpl. lia.
  - inversion Hok as [| ? ? Hc Hcs]; subst.
    destruct (runMethod_wellformed c qb Hc)
      as (issued & qb1 & Hrun & Halias & Hissued & Hcounter).
    destruct (IH qb1 Hcs) as (more & qb2 & Hrest & Halias' & Hmore & Hcounter').
    exists (issued ++ more), qb2.
    split; [| split; [congruence | split]].
    + simpl. unfold bind at 1. rewrite Hrun.
      unfold bind at 1. rewrite Hrest. reflexivity.
    + rewrite Hissued, Hmore, Hcounter.
      unfold aliasRequests in *. simpl.
      destruct (isGetAlias c); simpl; rewrite ?Nat.add_0_r, ?Nat.add_1_r;
        reflexivity.
    + rewrite Hcounter', Hcounter.
      unfold aliasRequests. simpl.
      destruct (isGetAlias c); simpl; lia.
Qed.

(** X1.  Whatever well-formed calls are made on a new builder, the aliases
    that [getAlias] issues are [t1], [t2], ... in the order of the calls: no
    two are the same and none is the builder's own alias [t0], which no call
    changes. *)
Theorem issued_aliases_are_fresh (cs : list method_call) :
  Forall (fun c => malformed c = false) cs ->
  exists issued qb,
    runMethods cs createQueryBuilder = Ret issued qb /\
    alias qb = "t0" /\
    issued = map aliasName (seq 1 (aliasRequests cs)) /\
    NoDup (alias qb :: issued).
Proof.
  intros Hok.
  destruct (runMethods_wellformed createQueryBuilder Hok)
    as (issued & qb & Hrun & Halias & Hissued & _).
  exists issued, qb.
  split; [exact Hrun | split; [exact Halias | split; [exact Hissued |]]].
  rewrite Halias, Hissued.
  change (alias createQueryBuilder
            :: map aliasName (seq (counter createQueryBuilder)
                                  (aliasRequests cs)))
    with (map aliasName (seq 0 (S (aliasRequests cs)))).
  apply Finite.Injective_map_NoDup; [| apply seq_NoDup].
  intros n m. apply aliasName_inj.
Qed.

Lemma issued_aliases_are_fresh_witness :
  exists qb,
    runMethods [DoGetAlias; DoJoin rolesJoin; DoGetAlias; DoWhere adultsFilter;
                DoGetAlias] createQueryBuilder =
    Ret ["t1"; "t2"; "t3"] qb /\
    NoDup ["t0"; "t1"; "t2"; "t3"].
Proof.
  destruct (@issued_aliases_are_fresh
              [DoGetAlias; DoJoin rolesJoin; DoGetAlias; DoWhere adultsFilter;
               DoGetAlias])
    as (issued & qb & Hrun & Halias & Hissued & Hfresh).
  - repeat constructor.
  - exists qb. rewrite Halias, Hissued in Hfresh. rewrite Hissued in Hrun.
    split; [exact Hrun | exact Hfresh].
Defined.

(** ** The column resolver, once more *)

Lemma containsDot_qualified (a name : string) :
  containsDot (a ++ String "." name) = true.
Proof.
  induction a as [| c a IH]; simpl; [reflexivity |].
  now destruct (Ascii.eqb c ".").
Qed.

(** X2.  Resolving a column is stable: resolving the result again with the
    same arguments changes nothing, and a column name that has been given a
    qualifier (an explicit alias, or the builder's under a select or count)
    is returned as it is by every later resolution, whatever the alias and
    the kind then are. *)
Theorem aliasColumn_is_stable (c : value) (a a' : option string)
        (qb qb' : QueryBuilder) :
  aliasColumn (aliasColumn c a qb) a qb = aliasColumn c a qb /\
  (a <> None \/ mustUseAlias qb = true \/ isString c = false ->
   aliasColumn (aliasColumn c a qb) a' qb' = aliasColumn c a qb).
Proof.
  split.
  - destruct c as [| | | | | name | | |]; try reflexivity.
    simpl. destruct (containsDot name) eqn:Hdot.
    + simpl. now rewrite Hdot.
    + destruct a as [x |].
      * simpl. now rewrite containsDot_qualified.
      * destruct (mustUseAlias qb) eqn:Hm.
        -- simpl. now rewrite containsDot_qualified.
        -- simpl. now rewrite Hdot, Hm.
  - intros Hq.
    destruct c as [| | | | | name | | |]; try reflexivity.
    simpl. destruct (containsDot name) eqn:Hdot.
    + simpl. now rewrite Hdot.
    + destruct a as [x |].
      * simpl. now rewrite containsDot_qualified.
      * destruct Hq as [Hq | [Hq | Hq]];
          [now elim Hq | | discriminate Hq].
        rewrite Hq. simpl. now rewrite containsDot_qualified.
Qed.

Lemma aliasColumn_is_stable_witness :
  aliasColumn (aliasColumn (VStr "name") None createQueryBuilder) (Some "t7")
              (delete createQueryBuilder) = VStr "t0.name".
Proof.
  destruct (aliasColumn_is_stable (VStr "name") None (Some "t7")
                                  createQueryBuilder (delete createQueryBuilder))
    as [_ Hlater].
  rewrite Hlater; [reflexivity |].
  right. left. reflexivity.
Defined.

(** ** Bulk configuration *)

Lemma init_throws params qb :
  isNil (p_where params) = false ->
  isPlainObject (p_where params) = false ->
  init params qb = Throw (Error "Where must be an object") qb.
Proof.
  intros Hnil Hplain. unfold init, bind. cbn [keysOf]. rewrite Hnil. simpl.
  destruct (p_where params); try discriminate Hnil; try discriminate Hplain;
    reflexivity.
Qed.

Lemma init_null qb :
  init InitNull qb =
  Throw (TypeError "Cannot destructure property '_q' of 'params' as it is null.")
        qb.
Proof. reflexivity. Qed.

Lemma init_omitted qb : init InitOmitted qb = init noParams qb.
Proof. reflexivity. Qed.

(** What [init] leaves in the builder when its filter is absent or a plain
    object. *)
Lemma init_fields params qb :
  isNil (p_where params) = true \/ isPlainObject (p_where params) = true ->
  exists qb',
    init params qb = Ret tt qb' /\
    st_type (state qb') = Some Select /\
    st_select (state qb') =
    (if isNil (p_select params) then [VStr "*"]
     else uniq (castArray (p_select params))) /\
    st_where (state qb') =
    (if isNil (p_where params) then st_where (state qb)
     else st_where (state qb) ++ [p_where params]) /\
    st_search (state qb') =
    (if isNil (p_q params) then st_search (state qb) else p_q params) /\
    st_limit (state qb') =
    (if isNil (p_limit params) then st_limit (state qb) else p_limit params) /\
    st_offset (state qb') =
    (if isNil (p_offset params) then st_offset (state qb)
     else p_offset params) /\
    st_orderBy (state qb') =
    match p_orderBy params with
    | Some o => o
    | None => st_orderBy (state qb)
    end /\
    st_groupBy (state qb') =
    match p_groupBy params with
    | Some g => g
    | None => st_groupBy (state qb)
    end /\
    st_populate (state qb') =
    (if isNil (p_populate params) then st_populate (state qb)
     else p_populate params) /\
    st_count (state qb') = st_count (state qb) /\
    st_data (state qb') = st_data (state qb) /\
    st_first (state qb') = st_first (state qb) /\
    st_joins (state qb') = st_joins (state qb) /\
    alias qb' = alias qb /\ counter qb' = counter qb /\
    dbCalls qb' = dbCalls qb.
Proof.
  intros Hok. unfold init, bind. cbn [keysOf].
  assert (Hwhere :
            exists qb0,
              (if negb (isNil (p_where params))
               then where_ (p_where params) else ret tt) qb = Ret tt qb0 /\
              qb0 = onState
                      (fun s =>
                         set_where
                           (if isNil (p_where params) then st_where s
                            else st_where s ++ [p_where params]) s) qb).
  { destruct (isNil (p_where params)) eqn:Hnil; simpl.
    - exists qb. split; [reflexivity |]. now destruct qb as [a n [] d].
    - destruct Hok as [Hok | Hok]; [discriminate Hok |].
      destruct (p_where params); try discriminate Hok.
      eexists. split; reflexivity. }
  destruct Hwhere as (qb0 & -> & ->).
  eexists. split; [reflexivity |].
  unfold unlessNil.
  destruct (isNil (p_q params)), (isNil (p_select params)),
    (isNil (p_limit params)), (isNil (p_offset params)),
    (p_orderBy params), (p_groupBy params), (isNil (p_populate params));
    simpl; repeat split; reflexivity.
Qed.

(** X3.  [init] fails in two cases and no other: on [null], which the
    default of the parameter does not replace, with the [TypeError] of the
    destructuring; and when the [where] key of its argument holds something
    that is neither nil nor a plain object, with the error of [where].  Either
    way the builder is left as it was: the filter is handled first, so none
    of the other keys has been applied. *)
Theorem init_fails_on_null_or_a_malformed_filter (arg : init_argument)
        (qb : QueryBuilder) :
  ((exists e qb', init arg qb = Throw e qb') <->
   arg = InitNull \/
   exists params,
     keysOf arg = Some params /\
     isNil (p_where params) = false /\
     isPlainObject (p_where params) = false) /\
  (forall e qb',
      init arg qb = Throw e qb' ->
      qb' = qb /\
      (arg = InitNull ->
       e = TypeError
             "Cannot destructure property '_q' of 'params' as it is null.") /\
      (arg <> InitNull -> e = Error "Where must be an object")).
Proof.
  destruct arg as [| | params].
  - rewrite init_omitted.
    destruct (init_fields noParams qb (or_introl eq_refl)) as (qb1 & Hret & _).
    rewrite Hret. split.
    + split.
      * intros (e & qb' & H). discriminate H.
      * intros [H | (params & Hkeys & Hnil & _)]; [discriminate H |].
        injection Hkeys as <-. discriminate Hnil.
    + intros e qb' H. discriminate H.
  - rewrite init_null. split.
    + split; [auto | intros _; eauto].
    + intros e qb' H. injection H as <- <-.
      split; [reflexivity |]. split; [reflexivity |].
      intros Hnot. now elim Hnot.
  - assert (Hcases : (isNil (p_where params) = false /\
                      isPlainObject (p_where params) = false) \/
                     (isNil (p_where params) = true \/
                      isPlainObject (p_where params) = true)).
    { destruct (isNil (p_where params)), (isPlainObject (p_where params));
        auto. }
    destruct Hcases as [[Hnil Hplain] | Hok].
    + rewrite (init_throws _ qb Hnil Hplain). split.
      * split; [| intros _; eauto].
        intros _. right. exists params. auto.
      * intros e qb' H. injection H as <- <-.
        split; [reflexivity |]. split; [discriminate | reflexivity].
    + destruct (init_fields params qb Hok) as (qb1 & Hret & _).
      rewrite Hret. split.
      * split.
        -- intros (e & qb' & H). discriminate H.
        -- intros [H | (params' & Hkeys & Hnil & Hplain)]; [discriminate H |].
           injection Hkeys as <-. destruct Hok as [H | H]; congruence.
      * intros e qb' H. discriminate H.
Qed.

Lemma init_fails_on_null_or_a_malformed_filter_witness :
  init {| p_q := VStr "smith"; p_where := VStr "age > 18";
          p_select := VStr "name"; p_limit := VNum 10; p_offset := VUndefined;
          p_orderBy := None; p_groupBy := None; p_populate := VUndefined |}
       createQueryBuilder =
  Throw (Error "Where must be an object") createQueryBuilder /\
  init InitNull (limit (VNum 10) createQueryBuilder) =
  Throw (TypeError "Cannot destructure property '_q' of 'params' as it is null.")
        (limit (VNum 10) createQueryBuilder).
Proof.
  set (params := {| p_q := VStr "smith"; p_where := VStr "age > 18";
                    p_select := VStr "name"; p_limit := VNum 10;
                    p_offset := VUndefined; p_orderBy := None;
                    p_groupBy := None; p_populate := VUndefined |}).
  split.
  - destruct (init_fails_on_null_or_a_malformed_filter params createQueryBuilder)
      as [[_ Hthrows] Hwhich].
    destruct Hthrows as (e & qb' & H);
      [right; exists params; repeat split |].
    destruct (Hwhich e qb' H) as (-> & _ & He).
    rewrite He in H by discriminate. exact H.
  - destruct (init_fails_on_null_or_a_malformed_filter
                InitNull (limit (VNum 10) createQueryBuilder))
      as [[_ Hthrows] Hwhich].
    destruct Hthrows as (e & qb' & H); [now left |].
    destruct (Hwhich e qb' H) as (-> & He & _).
    rewrite (He eq_refl) in H. exact H.
Defined.

(** X4.  When its filter is absent or a plain object, [init] returns and
    always leaves a select: the kind is [Select] whatever it was, the columns
    are those of the [select] key, deduplicated, or ['*'] when the key is
    nil; a filter is appended; each of the other keys overwrites its field
    when it is not nil and leaves it alone when it is; the payload, the count
    target, the joins and [first] are never touched. *)
Theorem init_configures_a_select (params : InitParams) (qb : QueryBuilder) :
  isNil (p_where params) = true \/ isPlainObject (p_where params) = true ->
  exists qb',
    init params qb = Ret tt qb' /\
    st_type (state qb') = Some Select /\
    (isNil (p_select params) = true -> st_select (state qb') = [VStr "*"]) /\
    (isNil (p_select params) = false ->
     st_select (state qb') = firstSeen (castArray (p_select params))) /\
    (isNil (p_where params) = true -> st_where (state qb') = st_where (state qb)) /\
    (isNil (p_where params) = false ->
     st_where (state qb') = st_where (state qb) ++ [p_where params]) /\
    (isNil (p_q params) = true -> st_search (state qb') = st_search (state qb)) /\
    (isNil (p_q params) = false -> st_search (state qb') = p_q params) /\
    (isNil (p_limit params) = true -> st_limit (state qb') = st_limit (state qb)) /\
    (isNil (p_limit params) = false -> st_limit (state qb') = p_limit params) /\
    (isNil (p_offset params) = true ->
     st_offset (state qb') = st_offset (state qb)) /\
    (isNil (p_offset params) = false -> st_offset (state qb') = p_offset params) /\
    (p_orderBy params = None -> st_orderBy (state qb') = st_orderBy (state qb)) /\
    (forall o, p_orderBy params = Some o -> st_orderBy (state qb') = o) /\
    (p_groupBy params = None -> st_groupBy (state qb') = st_groupBy (state qb)) /\
    (forall g, p_groupBy params = Some g -> st_groupBy (state qb') = g) /\
    (isNil (p_populate params) = true ->
     st_populate (state qb') = st_populate (state qb)) /\
    (isNil (p_populate params) = false ->
     st_populate (state qb') = p_populate params) /\
    st_data (state qb') = st_data (state qb) /\
    st_count (state qb') = st_count (state qb) /\
    st_joins (state qb') = st_joins (state qb) /\
    st_first (state qb') = st_first (state qb).
Proof.
  intros Hok.
  destruct (init_fields params qb Hok)
    as (qb' & Hret & Htype & Hselect & Hwhere & Hsearch & Hlimit & Hoffset
        & Horder & Hgroup & Hpopulate & Hcount & Hdata & Hfirst & Hjoins & _).
  exists qb'.
  split; [exact Hret |]. split; [exact Htype |].
  rewrite Hselect, Hwhere, Hsearch, Hlimit, Hoffset, Horder, Hgroup, Hpopulate.
  repeat split; try assumption;
    try (intros H; rewrite H; try rewrite uniq_firstSeen; reflexivity);
    try (intros x H; rewrite H; reflexivity).
Qed.

Lemma init_configures_a_select_witness :
  exists qb',
    init {| p_q := VUndefined; p_where := adultsFilter; p_select := VNull;
            p_limit := VNum 0; p_offset := VUndefined; p_orderBy := None;
            p_groupBy := None; p_populate := VUndefined |}
         (limit (VNum 25) (insert (VObject [("name", VStr "a")])
                                  createQueryBuilder)) = Ret tt qb' /\
    st_type (state qb') = Some Select /\
    st_select (state qb') = [VStr "*"] /\
    st_where (state qb') = [adultsFilter] /\
    st_limit (state qb') = VNum 0 /\
    st_data (state qb') = VObject [("name", VStr "a")].
Proof.
  set (params := {| p_q := VUndefined; p_where := adultsFilter;
                    p_select := VNull; p_limit := VNum 0;
                    p_offset := VUndefined; p_orderBy := None;
                    p_groupBy := None; p_populate := VUndefined |}).
  set (qb := limit (VNum 25) (insert (VObject [("name", VStr "a")])
                                     createQueryBuilder)).
  destruct (init_configures_a_select params qb)
    as (qb' & Hret & Htype & Hstar & _ & _ & Hwhere & _ & _ & _ & Hlimit & _
        & _ & _ & _ & _ & _ & _ & _ & Hdata & _).
  - right. reflexivity.
  - exists qb'. split; [exact Hret |]. split; [exact Htype |].
    split; [exact (Hstar eq_refl) |].
    split; [exact (Hwhere eq_refl) |].
    split; [exact (Hlimit eq_refl) | exact Hdata].
Defined.

(** ** What no sequence of calls does *)

Lemma extends_refl {A : Type} (l : list A) : extends l l.
Proof. exists []. now rewrite app_nil_r. Qed.

Lemma extends_snoc {A : Type} (l : list A) (x : A) : extends l (l ++ [x]).
Proof. now exists [x]. Qed.

Lemma extends_trans {A : Type} (l l' l'' : list A) :
  extends l l' -> extends l' l'' -> extends l l''.
Proof.
  intros [m ->] [m' ->]. exists (m ++ m'). now rewrite app_assoc.
Qed.

Lemma Deduplicated_uniq l : Deduplicated (uniq l).
Proof. rewrite uniq_firstSeen. apply Deduplicated_firstSeen. Qed.

Lemma step_effect_refl qb : step_effect qb qb.
Proof.
  unfold step_effect.
  repeat split; auto using extends_refl.
Qed.

Lemma step_effect_trans qb qb' qb'' :
  step_effect qb qb' -> step_effect qb' qb'' -> step_effect qb qb''.
Proof.
  intros (Ha & Hc & Hd & Hk & Hw & Hp & Hj & Hf & Hs)
         (Ha' & Hc' & Hd' & Hk' & Hw' & Hp' & Hj' & Hf' & Hs').
  unfold step_effect.
  split; [congruence |]. split; [lia |]. split; [congruence |].
  split.
  { destruct Hk' as [Hk' | Hk']; [| now right].
    rewrite Hk'. exact Hk. }
  split; [now apply extends_trans with (st_where (state qb')) |].
  split.
  { intros w Hin. destruct (Hp' w Hin) as [H | H]; [| now right].
    now apply Hp. }
  split; [now apply extends_trans with (st_joins (state qb')) |].
  split; auto.
Qed.

Ltac effect_of_setter :=
  unfold step_effect; simpl;
  repeat split;
  auto using extends_refl, extends_snoc, Deduplicated_uniq;
  try (right; eexists; split; reflexivity);
  try (intros w Hin; apply in_app_iff in Hin;
       destruct Hin as [Hin | [<- | []]]; [now left | now right]).

Lemma init_keys_effect (params : InitParams) qb :
  exists qb', builderOf (init params qb) = Some qb' /\ step_effect qb qb'.
Proof.
  assert (Hcases : (isNil (p_where params) = false /\
                    isPlainObject (p_where params) = false) \/
                   (isNil (p_where params) = true \/
                    isPlainObject (p_where params) = true)).
  { destruct (isNil (p_where params)), (isPlainObject (p_where params));
      auto. }
  destruct Hcases as [[Hnil Hplain] | Hok].
  - rewrite (init_throws _ qb Hnil Hplain).
    exists qb. split; [reflexivity | apply step_effect_refl].
  - destruct (init_fields params qb Hok)
      as (qb1 & Hret & Htype & Hselect & Hwhere & _ & _ & _ & _ & _ & _
          & _ & _ & Hfirst & Hjoins & Halias & Hcounter & Hdb).
    rewrite Hret. exists qb1. split; [reflexivity |].
    unfold step_effect.
    split; [exact Halias |]. split; [lia |]. split; [exact Hdb |].
    split; [right; exists Select; auto |].
    rewrite Hwhere, Hjoins, Hfirst, Hselect.
    split.
    { destruct (isNil (p_where params));
        auto using extends_refl, extends_snoc. }
    split.
    { intros w Hin. destruct (isNil (p_where params)) eqn:Hnil;
        [now left |].
      apply in_app_iff in Hin. destruct Hin as [Hin | [<- | []]];
        [now left | right].
      destruct Hok as [Hok | Hok]; congruence. }
    split; [apply extends_refl |].
    split; [auto |].
    intros _. destruct (isNil (p_select params)).
    + apply (Deduplicated_uniq [VStr "*"]).
    + apply Deduplicated_uniq.
Qed.

Lemma init_effect arg qb :
  exists qb', builderOf (init arg qb) = Some qb' /\ step_effect qb qb'.
Proof.
  destruct arg as [| | params].
  - rewrite init_omitted. apply init_keys_effect.
  - rewrite init_null. exists qb. split; [reflexivity | apply step_effect_refl].
  - apply init_keys_effect.
Qed.

Lemma runMethod_effect c qb qb' :
  builderOf (runMethod c qb) = Some qb' -> step_effect qb qb'.
Proof.
  destruct c; try (intros H; injection H as <-; effect_of_setter; fail).
  - destruct w; intros H; injection H as <-;
      try apply step_effect_refl; effect_of_setter.
  - intros H. unfold runMethod, bind in H.
    destruct (init_effect arg qb) as (qb1 & Hqb1 & Heffect).
    destruct (init arg qb) as [u qb2 | e qb2 |]; simpl in H, Hqb1;
      congruence.
Qed.

Lemma runMethods_effect cs qb :
  exists qb', builderOf (runMethods cs qb) = Some qb' /\ step_effect qb qb'.
Proof.
  revert qb. induction cs as [| c cs IH]; intros qb.
  - exists qb. split; [reflexivity | apply step_effect_refl].
  - simpl. unfold bind at 1.
    destruct (runMethod c qb) as [issued qb1 | e qb1 |] eqn:Hrun.
    + assert (H1 : step_effect qb qb1)
        by (apply runMethod_effect with c; now rewrite Hrun).
      destruct (IH qb1) as (qb2 & Hrest & H2).
      exists qb2. split; [| now apply step_effect_trans with qb1].
      unfold bind. destruct (runMethods cs qb1); exact Hrest.
    + exists qb1. split; [reflexivity |].
      apply runMethod_effect with c. now rewrite Hrun.
    + destruct c; simpl in Hrun; unfold bind in Hrun; try discriminate Hrun.
      * destruct w; discriminate Hrun.
      * exfalso.
        destruct (init_effect arg qb) as (qb1 & Hqb1 & _).
        destruct (init arg qb); discriminate.
Qed.

(** X5.  Whatever calls are made on a new builder, including [init] and
    calls that throw, the builder keeps a kind, and that kind is never
    [Truncate]: no method sets it. *)
Theorem truncate_is_never_set (cs : list method_call) :
  exists qb k,
    builderOf (runMethods cs createQueryBuilder) = Some qb /\
    st_type (state qb) = Some k /\
    k <> Truncate.
Proof.
  destruct (runMethods_effect cs createQueryBuilder)
    as (qb & Hqb & _ & _ & _ & Hkind & _).
  destruct Hkind as [Hkind | (k & Hkind & Hset)].
  - exists qb, Select. split; [exact Hqb |].
    split; [exact Hkind | discriminate].
  - exists qb, k. split; [exact Hqb |]. split; [exact Hkind |].
    intros ->. discriminate Hset.
Qed.

(** X6.  Whatever calls are made on a new builder, every filter in its state
    is a plain object and its column list holds no value twice. *)
Theorem configured_state_is_well_formed (cs : list method_call) :
  exists qb,
    builderOf (runMethods cs createQueryBuilder) = Some qb /\
    Forall (fun w => isPlainObject w = true) (st_where (state qb)) /\
    Deduplicated (st_select (state qb)).
Proof.
  destruct (runMethods_effect cs createQueryBuilder)
    as (qb & Hqb & _ & _ & _ & _ & _ & Hplain & _ & _ & Hdedup).
  exists qb. split; [exact Hqb |]. split.
  - apply Forall_forall. intros w Hin.
    destruct (Hplain w Hin) as [[] | H]. exact H.
  - apply Hdedup. apply Deduplicated_nil.
Qed.

(** X7.  No call takes anything back: after any sequence of calls on any
    builder the filters and the joins are the former ones with more appended,
    [first] is still set if it was, the alias is the same and the alias
    counter has not decreased. *)
Theorem calls_only_add (cs : list method_call) (qb0 : QueryBuilder) :
  exists qb,
    builderOf (runMethods cs qb0) = Some qb /\
    extends (st_where (state qb0)) (st_where (state qb)) /\
    extends (st_joins (state qb0)) (st_joins (state qb)) /\
    (st_first (state qb0) = true -> st_first (state qb) = true) /\
    alias qb = alias qb0 /\
    counter qb0 <= counter qb.
Proof.
  destruct (runMethods_effect cs qb0)
    as (qb & Hqb & Halias & Hcounter & _ & _ & Hwhere & _ & Hjoins & Hfirst & _).
  exists qb. repeat split; assumption.
Qed.

Lemma calls_only_add_witness :
  exists qb,
    builderOf (runMethods [DoInit noParams; DoDelete; DoWhere (VNum 3)]
                          (first selectWithJoin)) = Some qb /\
    st_first (state qb) = true /\
    extends [rolesJoin] (st_joins (state qb)).
Proof.
  destruct (calls_only_add [DoInit noParams; DoDelete; DoWhere (VNum 3)]
                           (first selectWithJoin))
    as (qb & Hqb & _ & Hjoins & Hfirst & _).
  exists qb. split; [exact Hqb |].
  split; [exact (Hfirst eq_refl) | exact Hjoins].
Defined.

(** ** The ways a configuration fails *)

Lemma runMethod_malformed c qb :
  malformed c = true ->
  runMethod c qb = Throw (errorOf c) qb.
Proof.
  intros Hbad. destruct c; try discriminate Hbad.
  - destruct w; try discriminate Hbad; reflexivity.
  - destruct arg as [| | params]; simpl in Hbad.
    + discriminate Hbad.
    + reflexivity.
    + apply andb_true_iff in Hbad. destruct Hbad as [Hnil Hplain].
      apply negb_true_iff in Hnil, Hplain.
      unfold runMethod, bind. now rewrite (init_throws _ qb Hnil Hplain).
Qed.

Lemma runMethods_stops pre c post qb issued qb' :
  runMethods pre qb = Ret issued qb' ->
  malformed c = true ->
  runMethods (pre ++ c :: post) qb = Throw (errorOf c) qb'.
Proof.
  revert qb issued. induction pre as [| d pre IH]; intros qb issued Hpre Hbad.
  - injection Hpre as _ <-. simpl. unfold bind at 1.
    now rewrite (runMethod_malformed _ qb Hbad).
  - simpl in *. unfold bind at 1. unfold bind at 1 in Hpre.
    destruct (runMethod d qb) as [i1 qb1 | e qb1 |]; try discriminate Hpre.
    unfold bind at 1. unfold bind at 1 in Hpre.
    destruct (runMethods pre qb1) as [i2 qb2 | e qb2 |] eqn:Hrest;
      try discriminate Hpre.
    injection Hpre as _ <-.
    now rewrite (IH qb1 i2 Hrest Hbad).
Qed.

Lemma first_malformed cs :
  Exists (fun c => malformed c = true) cs ->
  exists pre c post,
    cs = pre ++ c :: post /\
    Forall (fun d => malformed d = false) pre /\
    malformed c = true.
Proof.
  induction cs as [| d cs IH]; intros H; [inversion H |].
  destruct (malformed d) eqn:Hd.
  - exists [], d, cs. repeat split; [constructor | exact Hd].
  - inversion H as [? ? Hhead | ? ? Htail]; subst; [congruence |].
    destruct (IH Htail) as (pre & c & post & -> & Hpre & Hc).
    exists (d :: pre), c, post. repeat split; [now constructor | exact Hc].
Qed.

(** X8.  A sequence of calls fails exactly when it holds a call that is not
    well formed: a [where] given something that is neither [undefined] nor a
    plain object, an [init] whose [where] key is neither nil nor a plain
    object, or [init(null)].  It stops at the first such call, with the
    [TypeError] of the destructuring for [init(null)] and the error of
    [where] for the others, and the builder keeps what the calls before it
    have set. *)
Theorem a_sequence_fails_at_its_first_bad_call (cs : list method_call)
        (qb : QueryBuilder) :
  ((exists e qb', runMethods cs qb = Throw e qb') <->
   Exists (fun c => malformed c = true) cs) /\
  (forall pre c post,
      cs = pre ++ c :: post ->
      Forall (fun d => malformed d = false) pre ->
      malformed c = true ->
      exists issued qb',
        runMethods pre qb = Ret issued qb' /\
        runMethods cs qb = Throw (errorOf c) qb' /\
        (c = DoInit InitNull ->
         errorOf c =
         TypeError
           "Cannot destructure property '_q' of 'params' as it is null.") /\
        (c <> DoInit InitNull ->
         errorOf c = Error "Where must be an object")).
Proof.
  assert (Hstop : forall pre c post,
             cs = pre ++ c :: post ->
             Forall (fun d => malformed d = false) pre ->
             malformed c = true ->
             exists issued qb',
               runMethods pre qb = Ret issued qb' /\
               runMethods cs qb = Throw (errorOf c) qb').
  { intros pre c post -> Hpre Hbad.
    destruct (runMethods_wellformed qb Hpre) as (issued & qb' & Hrun & _).
    exists issued, qb'. split; [exact Hrun |].
    now apply runMethods_stops with issued. }
  split.
  - split.
    + intros (e & qb' & Hthrow).
      destruct (Exists_dec (fun c => malformed c = true) cs) as [H | H];
        [intros c; destruct (malformed c); [now left | now right]
        | exact H |].
      exfalso.
      assert (Hok : Forall (fun c => malformed c = false) cs).
      { apply Forall_forall. intros c Hin.
        destruct (malformed c) eqn:Hc; [| reflexivity].
        elim H. apply Exists_exists. now exists c. }
      destruct (runMethods_wellformed qb Hok) as (issued & qb1 & Hrun & _).
      congruence.
    + intros Hbad.
      destruct (first_malformed Hbad) as (pre & c & post & Hcs & Hpre & Hc).
      destruct (Hstop pre c post Hcs Hpre Hc) as (issued & qb' & _ & Hthrow).
      eauto.
  - intros pre c post Hcs Hpre Hc.
    destruct (Hstop pre c post Hcs Hpre Hc) as (issued & qb' & Hrun & Hthrow).
    exists issued, qb'.
    split; [exact Hrun |]. split; [exact Hthrow |].
    split.
    + intros ->. reflexivity.
    + intros Hnot. destruct c; try reflexivity.
      destruct arg; try reflexivity. now elim Hnot.
Qed.

Lemma a_sequence_fails_at_its_first_bad_call_witness :
  runMethods [DoLimit (VNum 10); DoWhere VNull; DoDelete] createQueryBuilder =
  Throw (Error "Where must be an object") (limit (VNum 10) createQueryBuilder) /\
  runMethods [DoJoin rolesJoin; DoInit InitNull; DoFirst] createQueryBuilder =
  Throw (TypeError "Cannot destructure property '_q' of 'params' as it is null.")
        (join rolesJoin createQueryBuilder).
Proof.
  split.
  - destruct (a_sequence_fails_at_its_first_bad_call
                [DoLimit (VNum 10); DoWhere VNull; DoDelete] createQueryBuilder)
      as [_ Hstop].
    destruct (Hstop [DoLimit (VNum 10)] (DoWhere VNull) [DoDelete] eq_refl)
      as (issued & qb' & Hpre & Hthrow & _).
    + repeat constructor.
    + reflexivity.
    + injection Hpre as _ <-. exact Hthrow.
  - destruct (a_sequence_fails_at_its_first_bad_call
                [DoJoin rolesJoin; DoInit InitNull; DoFirst] createQueryBuilder)
      as [_ Hstop].
    destruct (Hstop [DoJoin rolesJoin] (DoInit InitNull) [DoFirst] eq_refl)
      as (issued & qb' & Hpre & Hthrow & _).
    + repeat constructor.
    + reflexivity.
    + injection Hpre as _ <-. exact Hthrow.
Defined.

(** ** How the column setters compose *)

Lemma includes_uniq l y :
  In y l -> sameValueZero y y = true -> includes (uniq l) y = true.
Proof.
  intros Hin Hrefl. rewrite uniq_firstSeen.
  unfold includes. apply existsb_exists.
  induction l as [| x l IH]; [contradiction |].
  simpl. destruct Hin as [-> | Hin].
  - exists y. split; [now left | exact Hrefl].
  - destruct (IH Hin) as (z & Hz & Hyz).
    destruct (sameValueZero x z) eqn:Hxz.
    + apply sameValueZero_eq in Hxz. subst z.
      exists x. split; [now left | exact Hyz].
    + exists z. split; [| exact Hyz].
      right. apply filter_In. split; [exact Hz |]. now rewrite Hxz.
Qed.

Lemma uniq_absorbs l a :
  (forall y, In y a -> In y l /\ sameValueZero y y = true) ->
  uniq (l ++ a) = uniq l.
Proof.
  intros Hin. rewrite uniq_app.
  assert (Hnone : filter (fun y => negb (includes (uniq l) y)) a = []).
  { induction a as [| y a IH]; [reflexivity |].
    simpl. destruct (Hin y (or_introl eq_refl)) as [Hy Hrefl].
    rewrite (includes_uniq _ _ Hy Hrefl). simpl.
    apply IH. intros z Hz. apply Hin. now right. }
  rewrite Hnone. apply app_nil_r.
Qed.

(** X9.  Adding columns that are already there changes nothing: for columns
    that compare equal to themselves (strings, numbers, raw expressions held
    by reference), [addSelect] twice with the same columns is [addSelect]
    once, and [addSelect] after a [select] of the same columns is that
    [select]; and two [addSelect] calls leave the first occurrences of the
    old list followed by the two arguments, as one [addSelect] of both
    does. *)
Theorem addSelect_absorbs (a b : value) (qb : QueryBuilder) :
  ((forall y, In y (castArray a) -> sameValueZero y y = true) ->
   addSelect a (addSelect a qb) = addSelect a qb /\
   addSelect a (select a qb) = select a qb) /\
  st_select (state (addSelect b (addSelect a qb))) =
  firstSeen (st_select (state qb) ++ castArray a ++ castArray b) /\
  st_select (state (addSelect b (addSelect a qb))) =
  st_select (state (addSelect (VArray (castArray a ++ castArray b)) qb)).
Proof.
  split; [| split].
  - intros Hrefl. split.
    + unfold addSelect, onState, set_select. simpl. do 2 f_equal.
      rewrite uniq_app_uniq. apply uniq_absorbs.
      intros y Hy. split; [| now apply Hrefl].
      apply in_app_iff. now right.
    + unfold addSelect, select, onState, set_select, set_type. simpl.
      do 2 f_equal.
      rewrite uniq_app_uniq. apply uniq_absorbs.
      intros y Hy. split; [exact Hy | now apply Hrefl].
  - simpl. rewrite uniq_app_uniq, <- app_assoc. apply uniq_firstSeen.
  - simpl. now rewrite uniq_app_uniq, <- app_assoc.
Qed.

Lemma addSelect_absorbs_witness :
  addSelect (VArray [VStr "name"; VStr "age"])
            (addSelect (VArray [VStr "name"; VStr "age"]) adultNames) =
  addSelect (VArray [VStr "name"; VStr "age"]) adultNames.
Proof.
  destruct (addSelect_absorbs (VArray [VStr "name"; VStr "age"]) VNull adultNames)
    as [Hsame _].
  apply Hsame.
  intros y [<- | [<- | []]]; reflexivity.
Defined.

(** ** What a compiled query is bound to and selects *)

Section CompiledQueries.

Context {helpers : Helpers}.
Variable meta : Metadata.
Variable dialect : Dialect.

Lemma shouldUseSubQuery_iff qb :
  shouldUseSubQuery qb = true <->
  (st_type (state qb) = Some Delete \/ st_type (state qb) = Some Update) /\
  st_joins (state qb) <> [].
Proof.
  unfold shouldUseSubQuery. rewrite <- nonempty_length.
  destruct (st_type (state qb)) as [[]|]; split;
    try (intros H; discriminate H);
    try (intros [[H | H] _]; discriminate H);
    try (intros H; split; [auto | exact H]);
    try (intros [_ H]; exact H).
Qed.

(** X10.  A query compiled without the sub-query rewrite is bound to the
    entity's table under the builder's alias when the kind is [Select] or
    [Count], and to the bare table for every other kind; the kind and the
    alias are those the builder has before the processors run. *)
Theorem compiled_query_table fuel qb qb1 k :
  st_type (state qb) = Some k ->
  shouldUseSubQuery qb = false ->
  processState qb = Ret tt qb1 ->
  exists q qb2,
    getKnexQuery meta dialect (S fuel) qb = Ret q qb2 /\
    (k = Select \/ k = Count ->
     from_of q = FromTable (Aliased (alias qb) (tableName meta))) /\
    (k <> Select -> k <> Count ->
     from_of q = FromTable (Table (tableName meta))).
Proof.
  intros Hk Hsub Hproc.
  assert (Hdef : defaultKind qb = qb) by now apply defaultKind_of_kind with k.
  rewrite <- Hdef in Hproc, Hsub.
  destruct (getKnexQuery_direct_returns meta dialect fuel qb Hsub Hproc)
    as (q1 & qb2 & Hop & Hget).
  destruct (operationClause_shape _ _ _ _ Hop) as (_ & Hfrom & _).
  exists (universalClauses q1 qb2), qb2.
  split; [exact Hget |].
  rewrite from_of_universalClauses, Hfrom, Hdef. simpl.
  unfold aliasedTableName, mustUseAlias. rewrite Hk.
  split.
  - intros [-> | ->]; reflexivity.
  - intros Hs Hc. destruct k; try reflexivity; [now elim Hs | now elim Hc].
Qed.

Lemma aliasColumn_qualified c qb s :
  mustUseAlias qb = true ->
  aliasColumn c None qb = VStr s -> containsDot s = true.
Proof.
  intros Hm. destruct c as [| | | | | name | | |]; try discriminate.
  simpl. destruct (containsDot name) eqn:Hdot.
  - intros H. injection H as <-. exact Hdot.
  - rewrite Hm. intros H. injection H as <-. apply containsDot_qualified.
Qed.

(** X11.  The select clause of a compiled select is never empty and never
    holds a bare column name: every string in it carries a qualifier, a bare
    name of the builder's column list appears under the builder's alias, the
    one the table is bound under when the processors leave the alias alone,
    and a column that is not a string is passed as it is. *)
Theorem compiled_select_is_qualified fuel qb qb1 :
  st_type (state qb) = Some Select ->
  processState qb = Ret tt qb1 ->
  st_type (state qb1) = Some Select ->
  alias qb1 = alias qb ->
  exists q qb2 cols,
    getKnexQuery meta dialect (S fuel) qb = Ret q qb2 /\
    from_of q = FromTable (Aliased (alias qb) (tableName meta)) /\
    In (KSelect cols) (calls_of q) /\
    cols <> [] /\
    length cols = length (st_select (state qb2)) /\
    (forall s, In (VStr s) cols -> containsDot s = true) /\
    (forall name, In (VStr name) (st_select (state qb2)) ->
                  containsDot name = false ->
                  In (VStr (alias qb ++ "." ++ name)) cols) /\
    (forall c, In c (st_select (state qb2)) -> isString c = false ->
               In c cols).
Proof.
  intros Hk Hproc Hk1 Halias.
  assert (Hdef : defaultKind qb = qb)
    by now apply defaultKind_of_kind with Select.
  assert (Hsub : shouldUseSubQuery (defaultKind qb) = false).
  { rewrite Hdef. unfold shouldUseSubQuery. now rewrite Hk. }
  rewrite <- Hdef in Hproc.
  destruct (getKnexQuery_direct_returns meta dialect fuel qb Hsub Hproc)
    as (q1 & qb2 & Hop & Hget).
  destruct (operationClause_shape _ _ _ _ Hop) as (_ & Hfrom & _).
  assert (Hm : mustUseAlias qb1 = true)
    by (unfold mustUseAlias; now rewrite Hk1).
  exists (universalClauses q1 qb2), qb2,
    (map (fun c => aliasColumn c None qb1) (st_select (state qb2))).
  split; [exact Hget |].
  split.
  { rewrite from_of_universalClauses, Hfrom, Hdef. simpl.
    unfold aliasedTableName, mustUseAlias. now rewrite Hk. }
  assert (Hsel : In (KSelect (map (fun c => aliasColumn c None qb1)
                                  (st_select (state qb2))))
                    (calls_of (universalClauses q1 qb2)) /\
                 st_select (state qb2) <> []).
  { rewrite calls_of_universalClauses.
    rewrite (operationClause_select _ _ _ _ Hk1) in Hop. cbv zeta in Hop.
    destruct (_ && _); injection Hop as <- <-;
      (split; [apply in_app_iff; left; simpl; auto |]); simpl.
    - destruct (st_orderBy (state qb1)); simpl;
        [destruct (st_select (state qb1)) |]; discriminate.
    - destruct (st_select (state qb1)); discriminate. }
  destruct Hsel as [Hin Hnonempty].
  split; [exact Hin |].
  split; [destruct (st_select (state qb2)); [now elim Hnonempty | discriminate] |].
  split; [apply length_map |].
  split; [| split].
  - intros s Hs. apply in_map_iff in Hs. destruct Hs as (c & Hc & _).
    now apply aliasColumn_qualified with c qb1.
  - intros name Hname Hdot. apply in_map_iff.
    exists (VStr name). split; [| exact Hname].
    simpl. now rewrite Hdot, Hm, Halias.
  - intros c Hc Hstr. apply in_map_iff.
    exists c. split; [| exact Hc].
    destruct c; try reflexivity. discriminate Hstr.
Qed.

End CompiledQueries.

Lemma compiled_query_table_witness :
  (exists q qb2,
      @getKnexQuery plainHelpers usersMeta plainDialect 1
        (count VUndefined adultNames) = Ret q qb2 /\
      from_of q = FromTable (Aliased "t0" "users")) /\
  (exists q qb2,
      @getKnexQuery plainHelpers usersMeta plainDialect 1
        (update (VObject [("name", VStr "a")]) adultNames) = Ret q qb2 /\
      from_of q = FromTable (Table "users")).
Proof.
  split.
  - destruct (@compiled_query_table plainHelpers usersMeta plainDialect 0
                (count VUndefined adultNames) (count VUndefined adultNames)
                Count eq_refl eq_refl eq_refl)
      as (q & qb2 & Hget & Haliased & _).
    exists q, qb2. split; [exact Hget |]. apply Haliased. now right.
  - destruct (@compiled_query_table plainHelpers usersMeta plainDialect 0
                (update (VObject [("name", VStr "a")]) adultNames)
                (update (VObject [("name", VStr "a")]) adultNames)
                Update eq_refl eq_refl eq_refl)
      as (q & qb2 & Hget & _ & Hbare).
    exists q, qb2. split; [exact Hget |]. apply Hbare; discriminate.
Defined.

Lemma compiled_select_is_qualified_witness :
  exists q qb2 cols,
    @getKnexQuery plainHelpers usersMeta plainDialect 1 selectWithJoin =
    Ret q qb2 /\
    In (KSelect cols) (calls_of q) /\
    In (VStr "t0.name") cols.
Proof.
  destruct (@compiled_select_is_qualified plainHelpers usersMeta plainDialect 0
              selectWithJoin selectWithJoin eq_refl eq_refl eq_refl eq_refl)
    as (q & qb2 & cols & Hget & _ & Hin & _ & _ & _ & Hbare & _).
  exists q, qb2, cols. split; [exact Hget |]. split; [exact Hin |].
  apply (Hbare "name"); [| reflexivity].
  change (@getKnexQuery plainHelpers usersMeta plainDialect 1 selectWithJoin)
    with (Ret (universalClauses
                 (Query (FromTable (Aliased "t0" "users"))
                        [KDistinct (VStr "t0.id");
                         KSelect [VStr "t0.age"; VStr "t0.name"]])
                 (onState (set_select [VStr "age"; VStr "name"]) selectWithJoin))
              (onState (set_select [VStr "age"; VStr "name"]) selectWithJoin))
    in Hget.
  injection Hget as _ <-. right. left. reflexivity.
Defined.

(** ** When the sub-query rewrite applies, and compiling twice *)

Section Recompilation.

Context {helpers : Helpers}.
Variable meta : Metadata.
Variable dialect : Dialect.

Lemma calls_of_allCalls q c : In c (calls_of q) -> In c (allCalls q).
Proof.
  destruct q as [f cs]. simpl. intros H. apply in_app_iff. now left.
Qed.

Lemma ranked_carries_no_subquery c :
  clauseRank c <> None -> carriesSubQuery c = false.
Proof.
  destruct c; simpl; intros H; try reflexivity. now elim H.
Qed.

(** X12.  A compilation is rewritten into a sub-query exactly when the kind
    is [Delete] or [Update] and there is a join.  The outer query is then
    bound to the bare table and holds no universal clause (no paging,
    ordering, grouping, filter, search or join): these go to the inner query,
    under the [id IN] filter.  Otherwise the compiled query holds no
    sub-query at any depth. *)
Theorem rewrite_applies_to_joined_mutations fuel qb qb1 :
  processState (compiledBuilder qb) = Ret tt qb1 ->
  st_type (state qb1) <> None ->
  exists q qb2,
    getKnexQuery meta dialect (3 + fuel) qb = Ret q qb2 /\
    ((exists c, In c (calls_of q) /\ carriesSubQuery c = true) <->
     (st_type (state qb) = Some Delete \/ st_type (state qb) = Some Update) /\
     st_joins (state qb) <> []) /\
    ((st_type (state qb) = Some Delete \/ st_type (state qb) = Some Update) /\
     st_joins (state qb) <> [] ->
     from_of q = FromTable (Table (tableName meta)) /\
     (forall c, In c (calls_of q) -> clauseRank c = None) /\
     exists inner,
       In (KWhereIn "id" (Query (FromSubquery inner "subQuery")
                                [KSelect [VStr "id"]]))
          (calls_of q) /\
       In (KApplyWhere (st_where (state qb2))) (allCalls inner) /\
       (forall c, In c (allCalls inner) -> carriesSubQuery c = false)) /\
    (~ ((st_type (state qb) = Some Delete \/ st_type (state qb) = Some Update) /\
        st_joins (state qb) <> []) ->
     forall c, In c (allCalls q) -> carriesSubQuery c = false).
Proof.
  intros Hproc Hk.
  destruct (compile_returns meta dialect fuel qb Hproc Hk)
    as (inner & qb2 & op & _ & Hinner & Hop & Hget).
  assert (Hflat : forall c, In c (allCalls inner) -> carriesSubQuery c = false).
  { intros c Hc. rewrite Hinner in Hc. apply in_app_iff in Hc.
    destruct Hc as [Hc | Hc]; [now apply Hop |].
    now apply ranked_carries_no_subquery, universalTrace_ranked with qb2. }
  assert (Hwhere : In (KApplyWhere (st_where (state qb2))) (allCalls inner)).
  { rewrite Hinner. apply in_app_iff. right. now apply In_universal_where. }
  assert (Hiff : shouldUseSubQuery (defaultKind qb) = true <->
                 (st_type (state qb) = Some Delete \/
                  st_type (state qb) = Some Update) /\
                 st_joins (state qb) <> []).
  { rewrite shouldUseSubQuery_defaultKind. apply shouldUseSubQuery_iff. }
  destruct (shouldUseSubQuery (defaultKind qb)).
  - destruct Hget as (k & Hk2 & Hget).
    eexists; exists qb2. split; [exact Hget |].
    split; [| split].
    + split; [intros _; now apply Hiff |].
      intros _. eexists. split; [right; left; reflexivity |].
      reflexivity.
    + intros _. split; [reflexivity |]. split.
      * intros c [<- | [<- | []]]; [now destruct k | reflexivity].
      * exists inner. split; [right; left; reflexivity |].
        split; [exact Hwhere | exact Hflat].
    + intros H. elim H. now apply Hiff.
  - exists inner, qb2. split; [exact Hget |].
    split; [| split].
    + split.
      * intros (c & Hc & Hcarries).
        apply calls_of_allCalls, Hflat in Hc. congruence.
      * intros H. apply Hiff in H. discriminate H.
    + intros H. apply Hiff in H. discriminate H.
    + intros _. exact Hflat.
Qed.

(** The columns a select with joins and no group-by is left with. *)
Lemma select_compile_columns fuel qb qb1 :
  st_type (state qb) = Some Select ->
  processState qb = Ret tt qb1 ->
  st_type (state qb1) = Some Select ->
  st_joins (state qb1) <> [] ->
  st_groupBy (state qb1) = [] ->
  exists q qb2,
    getKnexQuery meta dialect (S fuel) qb = Ret q qb2 /\
    st_type (state qb2) = Some Select /\
    st_select (state qb2) =
    map column (st_orderBy (state qb1)) ++
    selectedOrStar (st_select (state qb1)) /\
    In (KSelect (map (fun c => aliasColumn c None qb1) (st_select (state qb2))))
       (calls_of q).
Proof.
  intros Hk Hproc Hk1 Hjoins Hgroup.
  assert (Hdef : defaultKind qb = qb)
    by now apply defaultKind_of_kind with Select.
  assert (Hsub : shouldUseSubQuery (defaultKind qb) = false).
  { rewrite Hdef. unfold shouldUseSubQuery. now rewrite Hk. }
  rewrite <- Hdef in Hproc.
  destruct (getKnexQuery_direct_returns meta dialect fuel qb Hsub Hproc)
    as (q1 & qb2 & Hop & Hget).
  exists (universalClauses q1 qb2), qb2.
  split; [exact Hget |].
  rewrite (operationClause_select _ _ _ _ Hk1) in Hop. cbv zeta in Hop.
  apply nonempty_length in Hjoins. rewrite Hjoins, Hgroup in Hop.
  simpl in Hop. injection Hop as <- <-.
  split; [exact Hk1 |]. split; [reflexivity |].
  rewrite calls_of_universalClauses. apply in_app_iff. left.
  simpl. auto.
Qed.

(** X13.  Compiling is not idempotent on the builder: a select with joins and
    no group-by is left with the order-by columns in front of its column
    list, and compiling it again prepends them once more, so that the second
    query selects every order-by column twice. *)
Theorem recompiling_prepends_again fuel qb qb1 :
  st_type (state qb) = Some Select ->
  processState qb = Ret tt qb1 ->
  st_type (state qb1) = Some Select ->
  st_joins (state qb1) <> [] ->
  st_groupBy (state qb1) = [] ->
  exists q qb2,
    getKnexQuery meta dialect (S fuel) qb = Ret q qb2 /\
    st_select (state qb2) =
    map column (st_orderBy (state qb1)) ++
    selectedOrStar (st_select (state qb1)) /\
    forall qb3,
      processState qb2 = Ret tt qb3 ->
      st_type (state qb3) = Some Select ->
      st_joins (state qb3) <> [] ->
      st_groupBy (state qb3) = [] ->
      st_select (state qb3) = st_select (state qb2) ->
      exists q' qb4,
        getKnexQuery meta dialect (S fuel) qb2 = Ret q' qb4 /\
        st_select (state qb4) =
        map column (st_orderBy (state qb3)) ++
        map column (st_orderBy (state qb1)) ++
        selectedOrStar (st_select (state qb1)) /\
        In (KSelect (map (fun c => aliasColumn c None qb3)
                         (st_select (state qb4))))
           (calls_of q').
Proof.
  intros Hk Hproc Hk1 Hjoins Hgroup.
  destruct (select_compile_columns fuel qb Hk Hproc Hk1 Hjoins Hgroup)
    as (q & qb2 & Hget & Hk2 & Hsel & _).
  exists q, qb2. split; [exact Hget |]. split; [exact Hsel |].
  intros qb3 Hproc3 Hk3 Hjoins3 Hgroup3 Hsame.
  destruct (select_compile_columns fuel qb2 Hk2 Hproc3 Hk3 Hjoins3 Hgroup3)
    as (q' & qb4 & Hget' & _ & Hsel' & Hin').
  exists q', qb4. split; [exact Hget' |].
  split; [| exact Hin'].
  rewrite Hsel', Hsame, Hsel. f_equal.
  destruct (map column (st_orderBy (state qb1)) ++
            selectedOrStar (st_select (state qb1))) eqn:Hcols;
    [| reflexivity].
  apply app_eq_nil in Hcols. destruct Hcols as [_ Hcols].
  destruct (st_select (state qb1)); discriminate Hcols.
Qed.

End Recompilation.

Lemma rewrite_applies_to_joined_mutations_witness :
  (exists q qb2 c,
      @getKnexQuery plainHelpers usersMeta plainDialect 3 deleteWithJoin =
      Ret q qb2 /\
      In c (calls_of q) /\ carriesSubQuery c = true /\
      from_of q = FromTable (Table "users")) /\
  (exists q qb2,
      @getKnexQuery plainHelpers usersMeta plainDialect 3
        (delete adultNames) = Ret q qb2 /\
      forall c, In c (allCalls q) -> carriesSubQuery c = false).
Proof.
  split.
  - destruct (@rewrite_applies_to_joined_mutations
                plainHelpers usersMeta plainDialect 0 deleteWithJoin
                (select (VStr "id") deleteWithJoin) eq_refl)
      as (q & qb2 & Hget & Hiff & Hrewritten & _); [discriminate |].
    assert (Hjoined : (st_type (state deleteWithJoin) = Some Delete \/
                       st_type (state deleteWithJoin) = Some Update) /\
                      st_joins (state deleteWithJoin) <> [])
      by (split; [left; reflexivity | discriminate]).
    destruct (proj2 Hiff Hjoined) as (c & Hc & Hcarries).
    destruct (Hrewritten Hjoined) as (Hfrom & _).
    exists q, qb2, c. repeat split; assumption.
  - destruct (@rewrite_applies_to_joined_mutations
                plainHelpers usersMeta plainDialect 0 (delete adultNames)
                (delete adultNames) eq_refl)
      as (q & qb2 & Hget & _ & _ & Hdirect); [discriminate |].
    exists q, qb2. split; [exact Hget |].
    apply Hdirect. intros [_ Hjoins]. now apply Hjoins.
Defined.

Lemma recompiling_prepends_again_witness :
  exists q qb2 q' qb4,
    @getKnexQuery plainHelpers usersMeta plainDialect 1 selectWithJoin =
    Ret q qb2 /\
    @getKnexQuery plainHelpers usersMeta plainDialect 1 qb2 = Ret q' qb4 /\
    st_select (state qb4) = [VStr "age"; VStr "age"; VStr "name"] /\
    In (KSelect [VStr "t0.age"; VStr "t0.age"; VStr "t0.name"]) (calls_of q').
Proof.
  destruct (@recompiling_prepends_again plainHelpers usersMeta plainDialect 0
              selectWithJoin selectWithJoin eq_refl eq_refl eq_refl)
    as (q & qb2 & Hget & Hsel & Hagain); [discriminate | reflexivity |].
  assert (Hqb2 : qb2 = onState (set_select [VStr "age"; VStr "name"])
                               selectWithJoin).
  { change (@getKnexQuery plainHelpers usersMeta plainDialect 1 selectWithJoin)
      with (Ret (universalClauses
                   (Query (FromTable (Aliased "t0" "users"))
                          [KDistinct (VStr "t0.id");
                           KSelect [VStr "t0.age"; VStr "t0.name"]])
                   (onState (set_select [VStr "age"; VStr "name"])
                            selectWithJoin))
                (onState (set_select [VStr "age"; VStr "name"])
                         selectWithJoin)) in Hget.
    now injection Hget as _ <-. }
  subst qb2.
  destruct (Hagain (onState (set_select [VStr "age"; VStr "name"])
                            selectWithJoin))
    as (q' & qb4 & Hget' & Hsel' & Hin');
    try reflexivity; try discriminate.
  exists q, (onState (set_select [VStr "age"; VStr "name"]) selectWithJoin),
    q', qb4.
  split; [exact Hget |]. split; [exact Hget' |].
  split; [exact Hsel' |].
  rewrite Hsel' in Hin'. exact Hin'.
Defined.

(** ** Count, update and delete; errors of the processors *)

Section PlainOperations.

Context {helpers : Helpers}.
Variable meta : Metadata.
Variable dialect : Dialect.

(** X14.  A count, an update or a delete that is not rewritten compiles to
    one operation call, on the count target, on the payload, or on nothing,
    followed by universal clauses only: even with joins a count gets no
    DISTINCT, and the column list plays no part.  The builder is left as the
    processors leave it.  [count()] targets ['*'], any other argument,
    [null] included, is the target as it is. *)
Theorem plain_operations_compile_to_one_call fuel qb qb1 k :
  st_type (state qb) = Some k ->
  shouldUseSubQuery qb = false ->
  processState qb = Ret tt qb1 ->
  st_type (state qb1) = Some k ->
  k = Count \/ k = Update \/ k = Delete ->
  (exists q c rest,
      getKnexQuery meta dialect (S fuel) qb = Ret q qb1 /\
      calls_of q = c :: rest /\
      (forall d, In d rest -> clauseRank d <> None) /\
      (k = Count -> c = KCount (Some (st_count (state qb1)))) /\
      (k = Update -> c = KUpdate (st_data (state qb1))) /\
      (k = Delete -> c = KDelete)) /\
  (forall b, st_count (state (count VUndefined b)) = VStr "*") /\
  (forall v b, v <> VUndefined -> st_count (state (count v b)) = v).
Proof.
  intros Hk Hsub Hproc Hk1 Hkind.
  split; [| split].
  - assert (Hdef : defaultKind qb = qb)
      by now apply defaultKind_of_kind with k.
    rewrite <- Hdef in Hproc, Hsub.
    destruct (getKnexQuery_direct_returns meta dialect fuel qb Hsub Hproc)
      as (q1 & qb2 & Hop & Hget).
    unfold operationClause in Hop. rewrite Hk1 in Hop.
    destruct Hkind as [-> | [-> | ->]]; injection Hop as <- <-;
      (eexists; eexists; exists (universalTrace qb1);
       split; [exact Hget |];
       split; [rewrite calls_of_universalClauses; reflexivity |];
       split; [intros d; apply universalTrace_ranked |];
       repeat split; intros H; reflexivity || discriminate H).
  - reflexivity.
  - intros v b Hv. destruct v; try reflexivity. now elim Hv.
Qed.

Lemma getKnexQuery_direct_throws fuel qb e qb' :
  shouldUseSubQuery (defaultKind qb) = false ->
  processState (defaultKind qb) = Throw e qb' ->
  getKnexQuery meta dialect (S fuel) qb = Throw e qb'.
Proof.
  intros Hsub Hproc. simpl. rewrite Hsub.
  unfold bind at 1. now rewrite Hproc.
Qed.

(** X15.  The error a processor throws is the error of the compilation, and
    the builder is left as the processor left it: nothing between the call of
    [getKnexQuery] and the processors can fail or intercept it, for a query
    that would be compiled directly and for one that would be rewritten into
    a sub-query alike. *)
Theorem processor_errors_are_compilation_errors fuel qb e qb' :
  processState (compiledBuilder qb) = Throw e qb' ->
  getKnexQuery meta dialect (3 + fuel) qb = Throw e qb'.
Proof.
  intros Hproc. unfold compiledBuilder in Hproc.
  rewrite getKnexQuery_fuel. unfold compile.
  destruct (shouldUseSubQuery (defaultKind qb)) eqn:Hsub.
  - rewrite (@getKnexQuery_rewritten _ meta dialect 2 qb Hsub).
    rewrite (@runSubQuery_unfold _ meta dialect 1).
    rewrite (@getKnexQuery_direct_throws
               0 (select (VStr "id") (defaultKind qb)) e qb');
      [reflexivity | reflexivity | exact Hproc].
  - now apply getKnexQuery_direct_throws.
Qed.

End PlainOperations.

Lemma plain_operations_compile_to_one_call_witness :
  exists q rest,
    @getKnexQuery plainHelpers usersMeta plainDialect 1
      (join rolesJoin (count VUndefined createQueryBuilder)) =
    Ret q (join rolesJoin (count VUndefined createQueryBuilder)) /\
    calls_of q = KCount (Some (VStr "*")) :: rest /\
    forall d, In d rest -> clauseRank d <> None.
Proof.
  destruct (@plain_operations_compile_to_one_call
              plainHelpers usersMeta plainDialect 0
              (join rolesJoin (count VUndefined createQueryBuilder))
              (join rolesJoin (count VUndefined createQueryBuilder))
              Count eq_refl eq_refl eq_refl eq_refl (or_introl eq_refl))
    as ((q & c & rest & Hget & Hcalls & Hrest & Hcount & _) & _).
  exists q, rest. split; [exact Hget |].
  rewrite (Hcount eq_refl) in Hcalls.
  split; [exact Hcalls | exact Hrest].
Defined.

Lemma processor_errors_are_compilation_errors_witness :
  @getKnexQuery refusingHelpers usersMeta plainDialect 3 deleteWithJoin =
  Throw (Error "Invalid filter") (select (VStr "id") deleteWithJoin) /\
  @getKnexQuery refusingHelpers usersMeta plainDialect 3 adultNames =
  Throw (Error "Invalid filter") adultNames.
Proof.
  split.
  - apply (@processor_errors_are_compilation_errors
             refusingHelpers usersMeta plainDialect 0 deleteWithJoin).
    reflexivity.
  - apply (@processor_errors_are_compilation_errors
             refusingHelpers usersMeta plainDialect 0 adultNames).
    reflexivity.
Defined.
